(** * llm_owl: the ontology validator and the bounded LLM correction loop

    A shallow embedding of [validator.py] and [generate_ontology.py].

    - Python values that reach the code from the YAML competency-question
      file are modelled by [value]: [None], booleans, integers, strings and
      lists of those scalars.
    - Dictionaries ([cq], the per-question [entry]) are finite maps from
      strings to values.
    - The libraries the code calls are not part of the repository and are
      taken as functions of their arguments (Section variables): the Turtle
      parser and the SPARQL engine of rdflib, the Pellet reasoner of
      owlready2, the YAML loader, the JSON serialiser and the chat-completion
      endpoint. A call that can raise returns a sum.
    - Effects are threaded through a [world]: the files on disk, the records
      handed to [emit_log] and the number of chat-completion requests made
      so far. Text printed on the terminal is not modelled. The files are
      kept by name; [abspath] tells which names are names of one file. *)

From Stdlib Require Import ZArith Ascii String DecimalString DecimalPos DecimalZ.
From stdpp Require Import gmap strings list fin_maps.
From Equations Require Import Equations.

(** ** Python values *)

Inductive scalar :=
| SNone
| SBool (b : bool)
| SInt (n : Z)
| SStr (s : string).

Inductive value :=
| Scalar (x : scalar)
| Seq (xs : list scalar).

#[global] Instance scalar_eq_dec : EqDecision scalar.
Proof. solve_decision. Defined.

#[global] Instance value_eq_dec : EqDecision value.
Proof. solve_decision. Defined.

Definition None_ : value := Scalar SNone.
Definition Bool_ (b : bool) : value := Scalar (SBool b).
Definition Int_ (n : Z) : value := Scalar (SInt n).
Definition Str_ (s : string) : value := Scalar (SStr s).

Definition nl : string := String "010"%char "".

(** [str(x)] on a scalar. *)
Definition py_str (x : scalar) : string :=
  match x with
  | SNone => "None"
  | SBool true => "True"
  | SBool false => "False"
  | SInt n => NilZero.string_of_int (Z.to_int n)
  | SStr s => s
  end.

(** Truth value of an object in a condition. *)
Definition truthy (v : value) : bool :=
  match v with
  | Scalar SNone => false
  | Scalar (SBool b) => b
  | Scalar (SInt n) => negb (n =? 0)%Z
  | Scalar (SStr s) => negb (bool_decide (s = ""))
  | Seq xs => negb (bool_decide (xs = []))
  end.

(** [a or b]. *)
Definition py_or (a b : value) : value := if truthy a then a else b.

(** [bool] is a subclass of [int]: [True] is 1 and [False] is 0. *)
Definition int_of_bool (b : bool) : Z := if b then 1%Z else 0%Z.

(** [isinstance(v, int)], which holds of booleans too. *)
Definition isinstance_int (v : value) : option Z :=
  match v with
  | Scalar (SInt n) => Some n
  | Scalar (SBool b) => Some (int_of_bool b)
  | _ => None
  end.

(** [v == b] for a boolean [b]. *)
Definition eq_bool (v : value) (b : bool) : bool :=
  match isinstance_int v with
  | Some n => (n =? int_of_bool b)%Z
  | None => false
  end.

(** [d.get(k, default)]. *)
Definition get (d : gmap string value) (k : string) (default : value) : value :=
  match d !! k with
  | Some v => v
  | None => default
  end.

(** ** Results of the library calls *)

Inductive parse_result (graph : Type) :=
| Parsed (g : graph)
| ParseError (msg : string).
Arguments Parsed {graph} g.
Arguments ParseError {graph} msg.

(** A row of a SELECT result, as [_row_to_string] sees it. *)
Inductive row :=
| RowDict (values : list scalar)
| RowIterable (items : list scalar)
| RowOther (repr : string).

(** What [g.query(sparql)] does: it raises, or it returns a [bool], or it
    returns a result whose rows are produced when they are read; the read
    reaches the end, or it raises after some rows. *)
Inductive query_result :=
| QueryRaises (msg : string)
| QueryBool (b : bool)
| QueryRows (rs : list row)
| QueryRowsRaise (rs : list row) (msg : string).

(** The result of an ASK query as rdflib returns it: not a [bool] but a
    result that yields the answer when it is read. The answer has no
    [asdict] and cannot be iterated, so [_row_to_string] gives its [str]. *)
Definition ask_result (b : bool) : query_result :=
  QueryRows [RowOther (if b then "True" else "False")].

Inductive reasoner_result :=
| Reasoned (inconsistent_classes : list string)
| OwlReadyInconsistentOntologyError
| ReasonerRaises (msg : string).

Inductive llm_reply :=
| Reply (content : string)
| LlmRaises (msg : string).

(** ** The world the code runs in *)

Inductive log_event :=
| ttl_valid (path : string)
| ttl_invalid (path error : string)
| consistency_error (error : string)
| consistency_issues (inconsistent_classes : string)
| consistency_ok
| CQ_validation_start (total_questions : nat)
| competency_question (id passed error expected actual sparql question : value)
| competency_question_error (id : value) (error : string) (sparql : value)
| CQ_validation_end (total passed : nat)
| info (message : string)
| error_ (message : string).

Record world := {
  files : gmap string string;
  LOG : list log_event;
  llm_calls : nat
}.

Inductive exn :=
| SystemExit (code : Z)
| Exception (msg : string).

Inductive outcome (A : Type) :=
| Ret (a : A)
| Raise (e : exn).
Arguments Ret {A} a.
Arguments Raise {A} e.

Definition M (A : Type) : Type := world -> outcome A * world.

Definition ret {A} (a : A) : M A := fun w => (Ret a, w).

Definition raise {A} (e : exn) : M A := fun w => (Raise e, w).

Definition bind {A B} (m : M A) (k : A -> M B) : M B :=
  fun w =>
    match m w with
    | (Ret a, w') => k a w'
    | (Raise e, w') => (Raise e, w')
    end.

Notation "x <~ m ;; k" := (bind m (fun x => k))
  (at level 100, m at next level, right associativity).
Notation "m ;;; k" := (bind m (fun _ => k))
  (at level 100, right associativity).

(** [emit_log(stage, **fields)]: one record, without its timestamp. *)
Definition emit_log (ev : log_event) : M unit :=
  fun w => (Ret tt, {| files := files w; LOG := LOG w ++ [ev]; llm_calls := llm_calls w |}).

(** [open(path).read()]. *)
Definition read_file (path : string) : M string :=
  fun w =>
    match files w !! path with
    | Some s => (Ret s, w)
    | None => (Raise (Exception "FileNotFoundError"), w)
    end.

(** [open(path, "w").write(s)]. The files are kept by the name they were
    opened with. *)
Definition write_file (path s : string) : M unit :=
  fun w => (Ret tt, {| files := <[path := s]> (files w); LOG := LOG w; llm_calls := llm_calls w |}).

(** [open(path, "a+").write(s)]. *)
Definition append_file (path s : string) : M unit :=
  fun w =>
    let old := match files w !! path with Some t => t | None => "" end in
    (Ret tt, {| files := <[path := old +:+ s]> (files w); LOG := LOG w; llm_calls := llm_calls w |}).

Fixpoint ends_with_slash (s : string) : bool :=
  match s with
  | "" => false
  | String c "" => Ascii.eqb c "/"
  | String _ t => ends_with_slash t
  end.

(** [os.path.join(a, b)] on POSIX paths. *)
Definition path_join (a b : string) : string :=
  match b with
  | String "/"%char _ => b
  | _ => if bool_decide (a = "") then b
         else if ends_with_slash a then a +:+ b
         else a +:+ "/" +:+ b
  end.

(** ** validator.py *)

Record Summary := { total : nat; passed : nat }.

Record Report := { summary : Summary; results : list (gmap string value) }.

Module validator.
Section defs.

Context {graph : Type}.

(** [Graph().parse(data=ttl_text, format="turtle")]. *)
Variable parse : string -> parse_result graph.
(** [g.query(sparql)]. *)
Variable query : graph -> value -> query_result.
(** [owlready2.sync_reasoner_pellet] on a world holding the graph, then
    the names of [world.inconsistent_classes()]. *)
Variable sync_reasoner_pellet : graph -> reasoner_result.
(** [yaml.safe_load] on the text of the question file. *)
Variable yaml_safe_load : string -> option (list (gmap string value)).
(** [json.dump(report, f, indent=2, ensure_ascii=False)]. *)
Variable json_dump : Report -> string.
(** [open(path, "w")] inside the [try] of [log_report]: [None] when the
    file is opened, else the text of the exception. *)
Variable open_error : string -> option string.
(** [str(x)] on a list, which prints the [repr] of its items. *)
Variable str_of_list : list scalar -> string.

Definition _row_to_string (r : row) : string :=
  match r with
  | RowDict values => String.concat "|" (map py_str values)
  | RowIterable items => String.concat "|" (map py_str items)
  | RowOther repr => repr
  end.

Definition validate_ttl (ttl_path : string) : M bool :=
  ttl_text <~ read_file ttl_path ;;
  match parse ttl_text with
  | Parsed _ => emit_log (ttl_valid ttl_path) ;;; ret true
  | ParseError e => emit_log (ttl_invalid ttl_path e) ;;; ret false
  end.

Definition check_consistency (ontology : graph) : M (list string) :=
  match sync_reasoner_pellet ontology with
  | OwlReadyInconsistentOntologyError =>
      emit_log (consistency_error "OwlReadyInconsistentOntologyError") ;;;
      ret ["The ontology is inconsistent"]
  | ReasonerRaises msg => raise (Exception msg)
  | Reasoned classes =>
      let inconsistent_classes := String.concat ", " classes in
      if negb (bool_decide (inconsistent_classes = "")) then
        emit_log (consistency_issues inconsistent_classes) ;;;
        ret ["There are inconsistent classes in the ontology: " +:+ inconsistent_classes]
      else
        emit_log consistency_ok ;;; ret []
  end.

Definition validate_with_competency_question
    (g : graph) (cq : gmap string value) (results : list (gmap string value))
  : M (gmap string value) :=
  let qid := py_or (get cq "id" None_) (py_or (get cq "name" None_) (Str_ "unnamed")) in
  let sparql := get cq "sparql" (Str_ "") in
  let expected := get cq "expected" None_ in
  let question := get cq "question" (Str_ "") in
  let entry : gmap string value :=
    <["question" := question]> (<["expected" := expected]>
      (<["sparql" := sparql]> (<["id" := qid]> ∅))) in
  match query g sparql with
  | QueryRaises e =>
      let entry := <["actual" := None_]> (<["error" := Str_ e]>
                     (<["passed" := Bool_ false]> entry)) in
      emit_log (competency_question_error qid e sparql) ;;;
      ret entry
  | QueryBool actual_bool =>
      let passed :=
        if bool_decide (expected = None_) && actual_bool then true
        else eq_bool expected actual_bool in
      ret (<["actual" := Bool_ actual_bool]> (<["passed" := Bool_ passed]> entry))
  | QueryRows res =>
      let rows := map _row_to_string res in
      let entry := <["actual" := Seq (map SStr rows)]> entry in
      let passed :=
        match isinstance_int expected with
        | Some n => (Z.of_nat (length rows) =? n)%Z
        | None =>
            match expected with
            | Seq xs =>
                bool_decide (list_to_set rows =@{gset string} list_to_set (map py_str xs))
            | _ => (0 <? length rows)%nat
            end
        end in
      ret (<["passed" := Bool_ passed]> entry)
  | QueryRowsRaise _ e =>
      (* [for r in res] is after the [try]: the exception leaves the function *)
      raise (Exception e)
  end.

(** The body of [for cq in competency_questions], with the two variables
    the loop updates. *)
Fixpoint for_cq (g : graph) (competency_questions : list (gmap string value))
    (results : list (gmap string value)) (passed_count : nat)
  : M (list (gmap string value) * nat) :=
  match competency_questions with
  | [] => ret (results, passed_count)
  | cq :: rest =>
      output <~ validate_with_competency_question g cq results ;;
      let passed_count :=
        if negb (bool_decide (output = ∅)) && truthy (get output "passed" (Bool_ true))
        then S passed_count else passed_count in
      let results := results ++ [output] in
      emit_log (competency_question
                  (get output "id" None_) (get output "passed" None_)
                  (get output "error" None_) (get output "expected" None_)
                  (get output "actual" None_) (get output "sparql" None_)
                  (get output "question" None_)) ;;;
      for_cq g rest results passed_count
  end.

Definition validate_with_competency_questions
    (ttl_text : string) (competency_questions : list (gmap string value))
  : M (bool * Report) :=
  match parse ttl_text with
  | ParseError e => raise (Exception e)
  | Parsed g =>
      emit_log (CQ_validation_start (length competency_questions)) ;;;
      st <~ for_cq g competency_questions [] 0 ;;
      let summary := {| total := length competency_questions; passed := snd st |} in
      let output := {| summary := summary; results := fst st |} in
      emit_log (CQ_validation_end (total summary) (passed summary)) ;;;
      ret ((snd st =? length competency_questions)%nat, output)
  end.

Definition _load_json (path : string) : M (list (gmap string value)) :=
  text <~ read_file path ;;
  match yaml_safe_load text with
  | Some cqs => ret cqs
  | None => raise (Exception "YAMLError")
  end.

Definition validate_with_competency_questions_file (ttl_file cq_file : string)
  : M (bool * Report) :=
  ttl_text <~ read_file ttl_file ;;
  cqs <~ _load_json cq_file ;;
  validate_with_competency_questions ttl_text cqs.

(** [f"{v}"]. *)
Definition format (v : value) : string :=
  match v with
  | Scalar x => py_str x
  | Seq xs => str_of_list xs
  end.

Definition format_nat (n : nat) : string := py_str (SInt (Z.of_nat n)).

Definition pretty_print_errors (report : Report) : string :=
  let head :=
    [ "Competency Questions Validation Report:";
      "  Passed " +:+ format_nat (passed (summary report)) +:+ " out of "
        +:+ format_nat (total (summary report)) +:+ " questions." ] in
  let lines_of (result : gmap string value) : list string :=
    if negb (truthy (get result "passed" (Bool_ false))) then
      let qid := get result "id" (Str_ "unnamed") in
      let error := get result "error" (Str_ "") in
      let expected := get result "expected" (Str_ "") in
      let actual := get result "actual" (Str_ "") in
      let question := get result "question" (Str_ "") in
      [ "- Question ID: " +:+ format qid; "  Question: " +:+ format question ]
      ++ (if truthy error then [ "  Error: " +:+ format error ]
          else [ "  Expected: " +:+ format expected; "  Actual: " +:+ format actual ])
    else [] in
  String.concat nl (head ++ concat (map lines_of (results report))).

(** The [try] writes the report and logs that it did; when the file cannot
    be opened the [except] logs the failure. The text is returned in both
    cases. *)
Definition log_report (report : Report) (out : string) : M string :=
  let report_path := path_join out "validation_report.json" in
  match open_error report_path with
  | None =>
      write_file report_path (json_dump report) ;;;
      emit_log (info ("Wrote report to " +:+ report_path))
  | Some e =>
      emit_log (error_ ("Failed to write report to " +:+ report_path +:+ ": " +:+ e))
  end ;;;
  ret (pretty_print_errors report).

(** [main], after the arguments are read and the logger is set up. *)
Definition main (ttl_file cqs_file : string) : M unit :=
  validate_ttl ttl_file ;;;
  ttl_text <~ read_file ttl_file ;;
  match parse ttl_text with
  | ParseError e => raise (Exception e)
  | Parsed g =>
      check_consistency g ;;;
      validate_with_competency_questions_file ttl_file cqs_file ;;;
      ret tt
  end.

End defs.
End validator.

(** ** generate_ontology.py *)

Module generate_ontology.

Record Args := {
  file : option string;
  text : option string;
  system : string;
  model : option string;
  name : string;
  dest : string;
  recursive : bool
}.

Section defs.

Context {graph : Type}.
Variable parse : string -> parse_result graph.
Variable query : graph -> value -> query_result.
Variable yaml_safe_load : string -> option (list (gmap string value)).
Variable json_dump : Report -> string.
Variable open_error : string -> option string.
Variable str_of_list : list scalar -> string.
(** [os.getenv("LLM_MODEL")]. *)
Variable LLM_MODEL : option string.
(** [client.chat.completions.create(model=model, messages=messages)] and the
    text of its first choice; the first argument is the number of requests
    made before this one. *)
Variable chat_completions_create : nat -> string -> string -> string -> llm_reply.
(** The Turtle block after the [## OWL] heading (a regular-expression
    search), or the empty string. *)
Variable split_response : string -> string.

Definition prefix_part : string :=
  "# Prefixes" +:+ nl +:+
  "@prefix : <http://example.org/highway_code#> ." +:+ nl +:+
  "@prefix rdf: <http://www.w3.org/1999/02/22-rdf-syntax-ns#> ." +:+ nl +:+
  "@prefix rdfs: <http://www.w3.org/2000/01/rdf-schema#> ." +:+ nl +:+
  "@prefix owl: <http://www.w3.org/2002/07/owl#> ." +:+ nl +:+
  "@prefix xsd: <http://www.w3.org/2001/XMLSchema#> ." +:+ nl.

(** Truth value of an optional string: [None] and the empty string are false. *)
Definition truthy_opt (s : option string) : bool :=
  match s with
  | Some t => negb (bool_decide (t = ""))
  | None => false
  end.

(** [try: m except Exception as e: h(str(e))]; [SystemExit] is not an
    [Exception] and passes through. *)
Definition try_except {A} (m : M A) (h : string -> M A) : M A :=
  fun w =>
    match m w with
    | (Raise (Exception msg), w') => h msg w'
    | r => r
    end.

Definition load_system_prompt (path : string) : M string := read_file path.

Definition call_llm (system_prompt text dest : string) (model : option string)
  : M string :=
  let model :=
    if truthy_opt model then default "" model
    else default "gpt-4o-mini" LLM_MODEL in
  let content :=
    "Please follow the system step-by-step instructions exactly. " +:+
    "Given the following legal text, produce two outputs in this order:" +:+ nl +:+
    "1) A JSON array of extracted sentence-level objects as described in the system prompt." +:+ nl +:+
    "3) A section `## OWL` containing the OWL representation in Turtle (ttl)." +:+ nl +:+ nl +:+
    "Legal text:" +:+ nl +:+ nl +:+ text in
  let f := path_join dest "LLM_prompt.md" in
  append_file f ("# SYSTEM" +:+ nl +:+ system_prompt +:+ nl +:+ nl) ;;;
  append_file f ("# USER" +:+ nl +:+ content +:+ nl +:+ nl) ;;;
  fun w =>
    let w' := {| files := files w; LOG := LOG w; llm_calls := S (llm_calls w) |} in
    match chat_completions_create (llm_calls w) model system_prompt content with
    | Reply c => (Ret c, w')
    | LlmRaises e => (Raise (Exception e), w')
    end.

Definition save_outputs (json_text ttl_text dest out_prefix : string)
  : M (string * string) :=
  let jpath := path_join dest (out_prefix +:+ ".md") in
  let tpath := path_join dest (out_prefix +:+ ".ttl") in
  write_file jpath json_text ;;;
  write_file tpath ttl_text ;;;
  ret (jpath, tpath).

Definition validate_output (tpath dest : string) : M (option string) :=
  ok <~ validator.validate_ttl parse tpath ;;
  if negb ok then ret (Some "Failed to load Turtle file.")
  else
    r <~ validator.validate_with_competency_questions_file
           parse query yaml_safe_load tpath "cqs_example.json" ;;
    if negb (fst r) then
      error_msg <~ validator.log_report json_dump open_error str_of_list (snd r) dest ;;
      ret (Some error_msg)
    else ret None.

Definition ttl_of (response : string) : string :=
  prefix_part +:+ nl +:+ nl +:+ "# Generated code" +:+ nl +:+ nl +:+ split_response response.

(** [llm_fix_and_validate] up to its last [if]: one request for a fix,
    saved and validated. Returns [fixed_content] and the new [error_msg]. *)
Definition llm_fix_once (content dest error_msg : string)
  : M (string * option string) :=
  let system_prompt :=
    nl +:+ "Your task is to fix the provided OWL Turtle code based on the following error message from a validator:" in
  let user_prompt :=
    nl +:+ "Here is the original Turtle code:" +:+ nl +:+ content +:+ nl +:+
    "The Turtle code has the following issues:" +:+ nl +:+ error_msg +:+ nl +:+
    "Please provide a corrected version of the OWL Turtle code that resolves these issues." +:+ nl in
  fixed_content <~ try_except (call_llm system_prompt user_prompt dest LLM_MODEL)
                     (fun _ => raise (SystemExit 1)) ;;
  let ttl_part := ttl_of fixed_content in
  paths <~ save_outputs fixed_content ttl_part dest "fixed_output" ;;
  error_msg <~ validate_output (snd paths) dest ;;
  ret (fixed_content, error_msg).

Equations? llm_fix_and_validate (content dest error_msg : string)
    (step max_steps : nat) (w : world) : outcome unit * world
    by wf (max_steps - step) lt :=
  llm_fix_and_validate content dest error_msg step max_steps w
    with llm_fix_once content dest error_msg w => {
    | (Raise e, w') := (Raise e, w');
    | (Ret (fixed_content, error_msg'), w')
        with truthy_opt error_msg', decide (step < max_steps) => {
        | true, left _ :=
            llm_fix_and_validate fixed_content dest (default "" error_msg')
              (S step) max_steps w';
        | _, _ := (Ret tt, w') } }.
Proof. lia. Qed.

(** The default [max_steps=3] of [llm_fix_and_validate]. *)
Definition default_max_steps : nat := 3.

Definition llm_setup_and_validate (args : Args) : M unit :=
  if negb (truthy_opt (file args)) && negb (truthy_opt (text args)) then
    raise (SystemExit 2)
  else
    text <~ (if truthy_opt (file args) then read_file (default "" (file args))
             else ret (default "" (text args))) ;;
    system_prompt <~ load_system_prompt (system args) ;;
    content <~ try_except (call_llm system_prompt text (dest args) (model args))
                 (fun _ => raise (SystemExit 1)) ;;
    let ttl_part := ttl_of content in
    paths <~ save_outputs content ttl_part (dest args) (name args) ;;
    error_msg <~ validate_output (snd paths) (dest args) ;;
    if truthy_opt error_msg && recursive args then
      llm_fix_and_validate ttl_part (dest args) (default "" error_msg)
        0 default_max_steps
    else ret tt.

End defs.
End generate_ontology.

(** ** split_response

    The function reads a reply as text. Here a string is a sequence of
    code points below 256, one per character of the Rocq string. *)

Module response.

(** [c.isspace()] on these code points. *)
Definition isspace (c : ascii) : bool :=
  let n := nat_of_ascii c in
  ((9 <=? n) && (n <=? 13)) || ((28 <=? n) && (n <=? 32)) || (n =? 133) || (n =? 160).

(** The lower-case form that [re.IGNORECASE] compares on, for the letters
    of the pattern. *)
Definition lower (c : ascii) : ascii :=
  let n := nat_of_ascii c in
  if (65 <=? n) && (n <=? 90) then ascii_of_nat (n + 32) else c.

Fixpoint lower_string (s : string) : string :=
  match s with
  | "" => ""
  | String c t => String (lower c) (lower_string t)
  end.

(** What follows the literal [p] at the start of [s]. *)
Fixpoint strip_prefix (p s : string) : option string :=
  match p, s with
  | "", _ => Some s
  | String a p', String b s' => if Ascii.eqb a b then strip_prefix p' s' else None
  | String _ _, "" => None
  end.

(** The same for a lower-case literal matched without regard to case. *)
Fixpoint strip_prefix_ci (p s : string) : option string :=
  match p, s with
  | "", _ => Some s
  | String a p', String b s' => if Ascii.eqb a (lower b) then strip_prefix_ci p' s' else None
  | String _ _, "" => None
  end.

(** [content.split(sep, 1)[1]] when [sep in content]: what follows the
    first occurrence of [sep]. *)
Fixpoint split_after (sep s : string) : option string :=
  match strip_prefix sep s with
  | Some r => Some r
  | None =>
      match s with
      | "" => None
      | String _ t => split_after sep t
      end
  end.

Fixpoint lstrip (s : string) : string :=
  match s with
  | "" => ""
  | String c t => if isspace c then lstrip t else s
  end.

Fixpoint rstrip (s : string) : string :=
  match s with
  | "" => ""
  | String c t =>
      match rstrip t with
      | "" => if isspace c then "" else String c ""
      | t' => String c t'
      end
  end.

(** [s.strip()]. *)
Definition strip (s : string) : string := rstrip (lstrip s).

(** The closing fence of the pattern: a line feed and three backquotes. *)
Definition closing : string := nl +:+ "```".

(** The group [([\s\S]+?)] followed by the closing fence: the shortest
    non-empty start of [s] that the fence follows. *)
Fixpoint lazy_group (s : string) : option string :=
  match s with
  | "" => None
  | String c t =>
      match strip_prefix closing t with
      | Some _ => Some (String c "")
      | None => option_map (String c) (lazy_group t)
      end
  end.

(** The pattern matched at the start of [s]: three backquotes, [ttl] or
    [turtle] in any case, a line feed, the group and the closing fence. *)
Definition match_here (s : string) : option string :=
  match strip_prefix "```" s with
  | None => None
  | Some r =>
      let alternative (lang : string) :=
        match strip_prefix_ci lang r with
        | Some (String c r') => if Ascii.eqb c "010" then lazy_group r' else None
        | _ => None
        end in
      match alternative "ttl" with
      | Some g => Some g
      | None => alternative "turtle"
      end
  end.

(** [re.search]: the match at the leftmost position that has one. *)
Fixpoint search (s : string) : option string :=
  match match_here s with
  | Some g => Some g
  | None =>
      match s with
      | "" => None
      | String _ t => search t
      end
  end.

Definition split_response (content : string) : string :=
  match split_after "## OWL" content with
  | Some right_ =>
      match search (strip right_) with
      | Some g => strip g
      | None => ""
      end
  | None => ""
  end.

End response.

(** ** The command line of generate_ontology.py *)

Module cli.
Section defs.

Context {graph : Type}.
Variable parse : string -> parse_result graph.
Variable query : graph -> value -> query_result.
Variable yaml_safe_load : string -> option (list (gmap string value)).
Variable json_dump : Report -> string.
Variable open_error : string -> option string.
Variable str_of_list : list scalar -> string.
Variable LLM_MODEL : option string.
Variable chat_completions_create : nat -> string -> string -> string -> llm_reply.
Variable split_response : string -> string.
(** The paths for which [os.path.exists] holds when [main] starts. *)
Variable existing : gset string.

(** [f"{base_dest}_{i}"]. *)
Definition numbered (base_dest : string) (i : nat) : string :=
  base_dest +:+ "_" +:+ py_str (SInt (Z.of_nat i)).

(** [while os.path.exists(args.dest)], run at most [fuel] times; [None]
    when the loop has not ended by then. *)
Fixpoint while_exists (base_dest dest : string) (i fuel : nat) : option string :=
  match fuel with
  | 0 => None
  | S fuel' =>
      if bool_decide (dest ∈ existing)
      then while_exists base_dest (numbered base_dest i) (S i) fuel'
      else Some dest
  end.

(** [args.dest] as [main] settles it: the default under [dest/] when none
    is given, and the first free numbered variant when it exists and a
    generation is asked for. The loop is given one more turn than there are
    existing paths. *)
Definition given_dest (args : generate_ontology.Args) : string :=
  if negb (bool_decide (generate_ontology.dest args = "")) then generate_ontology.dest args
  else path_join "dest"
         ("dest_" +:+ default "None" LLM_MODEL +:+ "_" +:+ generate_ontology.name args).

Definition choose_dest (args : generate_ontology.Args) (validate_only : bool) : string :=
  let dest := given_dest args in
  if bool_decide (dest ∈ existing) && negb validate_only then
    default dest (while_exists dest dest 1 (S (size existing)))
  else dest.

Definition with_dest (args : generate_ontology.Args) (dest : string)
  : generate_ontology.Args :=
  {| generate_ontology.file := generate_ontology.file args;
     generate_ontology.text := generate_ontology.text args;
     generate_ontology.system := generate_ontology.system args;
     generate_ontology.model := generate_ontology.model args;
     generate_ontology.name := generate_ontology.name args;
     generate_ontology.dest := dest;
     generate_ontology.recursive := generate_ontology.recursive args |}.

(** [main], after the arguments are read; [os.makedirs] has no effect on
    the files. An absent [--dest] is the empty string. *)
Definition main (args : generate_ontology.Args) (validate_only : bool) : M unit :=
  let args := with_dest args (choose_dest args validate_only) in
  (if negb validate_only then
     generate_ontology.llm_setup_and_validate parse query yaml_safe_load json_dump open_error
       str_of_list LLM_MODEL chat_completions_create split_response args
   else ret tt) ;;;
  let tpath := path_join (generate_ontology.dest args)
                 (generate_ontology.name args +:+ ".ttl") in
  generate_ontology.validate_output parse query yaml_safe_load json_dump open_error str_of_list
    tpath (generate_ontology.dest args) ;;;
  ret tt.

End defs.
End cli.

(** ** Concrete libraries and inputs *)

(** A parser that rejects every document. *)
Definition reject_all : string -> parse_result unit := fun _ => ParseError "Bad syntax".

(** A parser that accepts every document. *)
Definition accept_all : string -> parse_result unit := fun _ => Parsed tt.

(** A query engine that knows five queries; the last one is accepted and
    fails when its rows are read. *)
Definition toy_query (g : unit) (sparql : value) : query_result :=
  if bool_decide (sparql = Str_ "ASK { ?s ?p ?o }") then ask_result true
  else if bool_decide (sparql = Str_ "ASK { :a :b :c }") then ask_result false
  else if bool_decide (sparql = Str_ "SELECT ?x WHERE { ?x a :C }") then
    QueryRows [RowDict [SStr "a"]; RowDict [SStr "b"]; RowDict [SStr "a"]]
  else if bool_decide (sparql = Str_ "SELECT ?x WHERE { ?x a :D }") then
    QueryRows []
  else if bool_decide
            (sparql = Str_ "SELECT ?x WHERE { SERVICE <http://localhost:9/sparql> { ?x a :C } }")
  then QueryRowsRaise [] "<urlopen error [Errno 111] Connection refused>"
  else QueryRaises "Expected {SelectQuery | ConstructQuery | DescribeQuery | AskQuery}".

(** An engine whose exception carries no message. *)
Definition silent_query (g : unit) (sparql : value) : query_result := QueryRaises "".

Definition no_yaml : string -> option (list (gmap string value)) := fun _ => Some [].

Definition no_json : Report -> string := fun _ => "{}".

(** Every file can be opened for writing. *)
Definition always_opens : string -> option string := fun _ => None.


Definition no_repr : list scalar -> string := fun _ => "[]".

(** An endpoint that always answers without a Turtle block. *)
Definition stubborn_llm : nat -> string -> string -> string -> llm_reply :=
  fun _ _ _ _ => Reply "Sorry.".

Definition no_split : string -> string := fun _ => "".

Definition empty_world : world := {| files := ∅; LOG := []; llm_calls := 0 |}.

Definition start_world : world :=
  {| files := {[ "system.md" := "You convert legal text to OWL." ]};
     LOG := []; llm_calls := 0 |}.

Definition recursive_args : generate_ontology.Args :=
  {| generate_ontology.file := None;
     generate_ontology.text := Some "Rule 1. You must stop at a red light.";
     generate_ontology.system := "system.md";
     generate_ontology.model := None;
     generate_ontology.name := "output";
     generate_ontology.dest := "dest";
     generate_ontology.recursive := true |}.


(** A reasoner that finds two unsatisfiable classes. *)
Definition two_classes : unit -> reasoner_result :=
  fun _ => Reasoned ["Vehicle"; "Road"].

Definition ask_cq : gmap string value :=
  {[ "id" := Str_ "q1"; "sparql" := Str_ "ASK { ?s ?p ?o }"; "expected" := Bool_ true ]}.

Definition count_cq : gmap string value :=
  {[ "id" := Str_ "q2"; "sparql" := Str_ "SELECT ?x WHERE { ?x a :C }";
     "expected" := Int_ 3 ]}.

Definition set_cq : gmap string value :=
  {[ "id" := Str_ "q3"; "sparql" := Str_ "SELECT ?x WHERE { ?x a :C }";
     "expected" := Seq [SStr "b"; SStr "a"] ]}.

Definition flag_cq : gmap string value :=
  {[ "id" := Str_ "q4"; "sparql" := Str_ "SELECT ?x WHERE { ?x a :D }";
     "expected" := Bool_ false ]}.

Definition bad_cq : gmap string value :=
  {[ "id" := Str_ "q5"; "sparql" := Str_ "SELEC ?x" ]}.

Definition any_cq : gmap string value :=
  {[ "name" := Str_ "any"; "sparql" := Str_ "SELECT ?x WHERE { ?x a :C }" ]}.

Definition one_cq : gmap string value :=
  {[ "id" := Int_ 0; "sparql" := Str_ "ASK { ?s ?p ?o }"; "expected" := Int_ 1 ]}.

(** An ASK query that is false on the graph, with no expectation. *)
Definition open_cq : gmap string value :=
  {[ "id" := Str_ "q6"; "sparql" := Str_ "ASK { :a :b :c }" ]}.

(** A query that parses and fails when it is evaluated. *)
Definition lazy_cq : gmap string value :=
  {[ "id" := Str_ "q7";
     "sparql" := Str_ "SELECT ?x WHERE { SERVICE <http://localhost:9/sparql> { ?x a :C } }" ]}.

Definition five_questions : list (gmap string value) :=
  [ask_cq; count_cq; set_cq; flag_cq; bad_cq].

(** A world with one unparseable Turtle file. *)
Definition broken_file_world : world :=
  {| files := {[ "dest/output.ttl" := "@prefix : <" ]}; LOG := []; llm_calls := 0 |}.

Definition is_ttl_check (ev : log_event) : bool :=
  match ev with
  | ttl_valid _ | ttl_invalid _ _ => true
  | _ => false
  end.

(** The number of validation cycles a run has started: every
    [validate_output] begins with [validate_ttl], which emits one record. *)
Definition validate_cycles (w : world) : nat := length (filter is_ttl_check (LOG w)).

(** ** Vocabulary of the statements *)

(** The [passed] flag of a per-question outcome is [True]. *)
Definition is_passed (entry : gmap string value) : bool :=
  bool_decide (entry !! "passed" = Some (Bool_ true)).

(** The outcome of one question, evaluated on its own. *)
Definition outcome_of {graph : Type} (query : graph -> value -> query_result)
    (g : graph) (cq : gmap string value) : gmap string value :=
  match fst (validator.validate_with_competency_question query g cq [] empty_world) with
  | Ret entry => entry
  | Raise _ => ∅
  end.

(** The world after more records were logged. *)
Definition logged (w : world) (evs : list log_event) : world :=
  {| files := files w; LOG := LOG w ++ evs; llm_calls := llm_calls w |}.

(** A computation that sends no request to the chat-completion endpoint. *)
Definition no_calls {A} (m : M A) : Prop :=
  forall w, llm_calls (snd (m w)) = llm_calls w.

(** A computation that sends exactly one. *)
Definition one_call {A} (m : M A) : Prop :=
  forall w, llm_calls (snd (m w)) = S (llm_calls w).

(** The report of a run of the evaluator: the outcomes in input order
    and their counts. *)
Definition report_of {graph : Type} (query : graph -> value -> query_result)
    (g : graph) (cqs : list (gmap string value)) : Report :=
  let outcomes := map (outcome_of query g) cqs in
  {| summary := {| total := length cqs;
                   passed := length (filter (fun e => is_passed e = true) outcomes) |};
     results := outcomes |}.

(** Every question of the list passes. *)
Definition all_pass {graph : Type} (query : graph -> value -> query_result)
    (g : graph) (cqs : list (gmap string value)) : bool :=
  forallb (fun cq => is_passed (outcome_of query g cq)) cqs.

(** The world after a file was written. *)
Definition written (w : world) (path s : string) : world :=
  {| files := <[path := s]> (files w); LOG := LOG w; llm_calls := llm_calls w |}.

Definition is_consistency_event (ev : log_event) : bool :=
  match ev with
  | consistency_error _ | consistency_issues _ | consistency_ok => true
  | _ => false
  end.

(** The records of the competency-question evaluator. *)
Definition is_question_event (ev : log_event) : bool :=
  match ev with
  | CQ_validation_start _ | competency_question _ _ _ _ _ _ _
  | competency_question_error _ _ _ | CQ_validation_end _ _ => true
  | _ => false
  end.

(** The names [main] tries for the destination, in order: the given one,
    then its numbered variants. *)
Definition candidate (base_dest : string) (k : nat) : string :=
  match k with
  | 0 => base_dest
  | S _ => cli.numbered base_dest k
  end.

(** A path that [os.path.join] appends to the directory. *)
Definition is_relative (b : string) : bool :=
  match b with
  | String "/"%char _ => false
  | _ => true
  end.

(** What [os.path.join] puts before a relative path. *)
Definition dir_prefix (a : string) : string :=
  if bool_decide (a = "") then ""
  else if ends_with_slash a then a else a +:+ "/".

Fixpoint last_char (s : string) : option ascii :=
  match s with
  | "" => None
  | String c "" => Some c
  | String _ t => last_char t
  end.

(** The four files a correction step writes under [dest]. *)
Definition fix_paths (dest : string) : list string :=
  [ path_join dest "LLM_prompt.md"; path_join dest "fixed_output.md";
    path_join dest "fixed_output.ttl"; path_join dest "validation_report.json" ].

(** A computation after which the file at [path] holds what it held,
    possibly with more text after it. *)
Definition appends_to {A} (path : string) (m : M A) : Prop :=
  forall w, exists suffix,
    default "" (files (snd (m w)) !! path) = default "" (files w !! path) +:+ suffix.


(** A loader that finds three questions; the rows of the second one cannot
    be read. *)
Definition three_questions : string -> option (list (gmap string value)) :=
  fun _ => Some [ask_cq; lazy_cq; count_cq].

(** An endpoint that answers with a Turtle block. *)
Definition helpful_llm : nat -> string -> string -> string -> llm_reply :=
  fun _ _ _ _ => Reply "## OWL".

(** A world with a Turtle file and a question file. *)
Definition valid_file_world : world :=
  {| files := {[ "dest/output.ttl" := ":a a :C ."; "cqs_example.json" := "- id: q1" ]};
     LOG := []; llm_calls := 0 |}.

(** A reply with a JSON part, the heading and a fenced Turtle block. *)
Definition fenced_reply : string :=
  "[]" +:+ nl +:+ "## OWL" +:+ nl +:+ "```" +:+ "TTL" +:+ nl +:+ ":a a :C . "
    +:+ nl +:+ "```" +:+ nl.

(** An endpoint that is down. *)
Definition dead_llm : nat -> string -> string -> string -> llm_reply :=
  fun _ _ _ _ => LlmRaises "Connection error.".

(** A world with the system prompt and an empty question file. *)
Definition ready_world : world :=
  {| files := {[ "system.md" := "You convert legal text to OWL.";
                 "cqs_example.json" := "[]" ]};
     LOG := []; llm_calls := 0 |}.

Definition is_question_record (ev : log_event) : bool :=
  match ev with
  | competency_question _ _ _ _ _ _ _ => true
  | _ => false
  end.

Definition is_error_record (ev : log_event) : bool :=
  match ev with
  | competency_question_error _ _ _ => true
  | _ => false
  end.

(** The query of the question raises. *)
Definition raises {graph : Type} (query : graph -> value -> query_result)
    (g : graph) (cq : gmap string value) : bool :=
  match query g (get cq "sparql" (Str_ "")) with
  | QueryRaises _ => true
  | _ => false
  end.

(** The query of the question is accepted and raises when its rows are
    read. *)
Definition read_fails {graph : Type} (query : graph -> value -> query_result)
    (g : graph) (cq : gmap string value) : bool :=
  match query g (get cq "sparql" (Str_ "")) with
  | QueryRowsRaise _ _ => true
  | _ => false
  end.

(** [path.split("/")]. *)
Fixpoint components (path : string) : list string :=
  match path with
  | "" => [""]
  | String c t =>
      if Ascii.eqb c "/" then "" :: components t
      else match components t with
           | [] => [String c ""]
           | x :: xs => String c x :: xs
           end
  end.

(** The components of an absolute path once [.] and empty components are
    dropped and each [..] has removed the component before it. *)
Fixpoint resolve (seen : list string) (comps : list string) : list string :=
  match comps with
  | [] => rev seen
  | c :: rest =>
      if bool_decide (c = "") || bool_decide (c = ".") then resolve seen rest
      else if bool_decide (c = "..") then resolve (tail seen) rest
      else resolve (c :: seen) rest
  end.

(** [os.path.abspath(path)] in the working directory [cwd], as the list of
    its components: two names with the same [abspath] are names of one
    file. *)
Definition abspath (cwd path : string) : list string :=
  resolve [] (components (path_join cwd path)).

(** A computation that raises [SystemExit] with no other status than [code]. *)
Definition exits_with {A} (code : Z) (m : M A) : Prop :=
  forall w c, fst (m w) = Raise (SystemExit c) -> c = code.

(** A computation that only adds records satisfying [P] to the log. *)
Definition emits_only {A} (P : log_event -> bool) (m : M A) : Prop :=
  forall w, exists evs, LOG (snd (m w)) = LOG w ++ evs /\ forallb P evs = true.

(** A computation that starts at most [k] validation cycles. *)
Definition cycles_at_most {A} (k : nat) (m : M A) : Prop :=
  forall w, validate_cycles (snd (m w)) <= validate_cycles w + k.


(** * Properties *)

Section evaluator.

Context {graph : Type}.
Variable parse : string -> parse_result graph.
Variable query : graph -> value -> query_result.

Abbreviation evaluate_one := (validator.validate_with_competency_question query).
Abbreviation evaluate := (validator.validate_with_competency_questions parse query).

Lemma get_lookup (d : gmap string value) k v dflt :
  d !! k = Some v -> get d k dflt = v.
Proof. intros H. unfold get. by rewrite H. Qed.

Lemma get_unset (d : gmap string value) k :
  d !! k = None \/ d !! k = Some None_ -> get d k None_ = None_.
Proof. unfold get. intros [-> | ->]; reflexivity. Qed.

Lemma logged_nil w : logged w [] = w.
Proof. destruct w. unfold logged. simpl. by rewrite app_nil_r. Qed.

(** The branch [isinstance(res, bool)]: when the query returns a [bool],
    the outcome records it as [actual]; with [expected] unset (absent or
    null) the question passes iff the result is true, and with a boolean
    [expected] it passes iff [expected] equals the result. *)
Lemma bool_result_passed_iff (g : graph) (cq : gmap string value)
    (results : list (gmap string value)) (w : world) (b : bool) :
  query g (get cq "sparql" (Str_ "")) = QueryBool b ->
  exists entry,
    evaluate_one g cq results w = (Ret entry, w) /\
    entry !! "actual" = Some (Bool_ b) /\
    (cq !! "expected" = None \/ cq !! "expected" = Some None_ ->
       entry !! "passed" = Some (Bool_ b)) /\
    (forall e : bool, cq !! "expected" = Some (Bool_ e) ->
       entry !! "passed" = Some (Bool_ (Bool.eqb e b))).
Proof.
  intros Hq. unfold validator.validate_with_competency_question.
  rewrite Hq. eexists. split; [reflexivity |].
  split; [by rewrite lookup_insert_eq |].
  rewrite lookup_insert_ne by done. rewrite lookup_insert_eq.
  split.
  - intros Hu. rewrite (get_unset _ _ Hu). simpl. by destruct b.
  - intros e He. rewrite (get_lookup _ _ _ _ He). by destruct e, b.
Qed.

(** C2. The answer [b] of an ASK query reaches the code as a result to be
    read, not as a [bool], so the branch above is not taken: the answer is
    read as one row. [actual] is the list with its text, and the answer
    itself is not looked at: with [expected] unset the question passes
    whatever the answer, and with a boolean [expected] it passes iff
    [expected] is true, the count of rows being one. *)
Theorem ask_result_is_counted (g : graph) (cq : gmap string value)
    (results : list (gmap string value)) (w : world) (b : bool) :
  query g (get cq "sparql" (Str_ "")) = ask_result b ->
  exists entry,
    evaluate_one g cq results w = (Ret entry, w) /\
    entry !! "actual" = Some (Seq [SStr (py_str (SBool b))]) /\
    (cq !! "expected" = None \/ cq !! "expected" = Some None_ ->
       entry !! "passed" = Some (Bool_ true)) /\
    (forall e : bool, cq !! "expected" = Some (Bool_ e) ->
       entry !! "passed" = Some (Bool_ e)).
Proof.
  intros Hq. unfold validator.validate_with_competency_question.
  rewrite Hq. unfold ask_result. eexists. split; [reflexivity |].
  rewrite lookup_insert_eq, lookup_insert_ne, lookup_insert_eq by done.
  split; [by destruct b |]. split.
  - intros Hu. by rewrite (get_unset _ _ Hu).
  - intros e He. rewrite (get_lookup _ _ _ _ He). by destruct e.
Qed.

(** C3. When the query returns rows and [expected] is an integer, the
    question passes iff the number of rows returned equals [expected]; rows
    are counted as returned, equal ones included. *)
Theorem select_count_passed_iff (g : graph) (cq : gmap string value)
    (results : list (gmap string value)) (w : world) (rs : list row) (n : Z) :
  query g (get cq "sparql" (Str_ "")) = QueryRows rs ->
  cq !! "expected" = Some (Int_ n) ->
  exists entry,
    evaluate_one g cq results w = (Ret entry, w) /\
    entry !! "actual" = Some (Seq (map SStr (map validator._row_to_string rs))) /\
    entry !! "passed" = Some (Bool_ (Z.of_nat (length rs) =? n)%Z).
Proof.
  intros Hq He. unfold validator.validate_with_competency_question.
  rewrite Hq, (get_lookup _ _ _ _ He). eexists. split; [reflexivity |].
  rewrite lookup_insert_eq, lookup_insert_ne, lookup_insert_eq by done.
  simpl. by rewrite length_map.
Qed.

(** C4. When the query returns rows and [expected] is a list, the question
    passes iff the strings of the rows and the strings of the expected
    values are the same set: every string on one side occurs on the other,
    whatever the order and the number of occurrences. *)
Theorem select_set_passed_iff (g : graph) (cq : gmap string value)
    (results : list (gmap string value)) (w : world) (rs : list row)
    (xs : list scalar) :
  query g (get cq "sparql" (Str_ "")) = QueryRows rs ->
  cq !! "expected" = Some (Seq xs) ->
  exists (entry : gmap string value) (p : bool),
    evaluate_one g cq results w = (Ret entry, w) /\
    entry !! "passed" = Some (Bool_ p) /\
    (p = true <->
     forall s : string, s ∈ map validator._row_to_string rs <-> s ∈ map py_str xs).
Proof.
  intros Hq He. unfold validator.validate_with_competency_question.
  rewrite Hq, (get_lookup _ _ _ _ He). simpl. eexists. eexists.
  split; [reflexivity |]. split; [by rewrite lookup_insert_eq |].
  rewrite bool_decide_eq_true. split.
  - intros Hs s. rewrite <- !(elem_of_list_to_set (C := gset string)).
    by rewrite Hs.
  - intros Hs. apply set_eq. intros s. rewrite !elem_of_list_to_set. apply Hs.
Qed.

(** C10. When the query returns rows and [expected] is a boolean, the
    boolean is read as a row count: [expected = true] passes iff exactly one
    row is returned and [expected = false] iff none is. *)
Theorem select_bool_expected_is_count (g : graph) (cq : gmap string value)
    (results : list (gmap string value)) (w : world) (rs : list row) (e : bool) :
  query g (get cq "sparql" (Str_ "")) = QueryRows rs ->
  cq !! "expected" = Some (Bool_ e) ->
  exists entry,
    evaluate_one g cq results w = (Ret entry, w) /\
    entry !! "passed" =
      Some (Bool_ (if e then (length rs =? 1)%nat else (length rs =? 0)%nat)).
Proof.
  intros Hq He. unfold validator.validate_with_competency_question.
  rewrite Hq, (get_lookup _ _ _ _ He). eexists. split; [reflexivity |].
  rewrite lookup_insert_eq. simpl. rewrite length_map.
  do 2 f_equal. destruct e; simpl.
  - destruct (Nat.eqb_spec (length rs) 1) as [-> | Hn]; [done |].
    apply Z.eqb_neq. lia.
  - destruct (Nat.eqb_spec (length rs) 0) as [-> | Hn]; [done |].
    apply Z.eqb_neq. lia.
Qed.

Lemma logged_app w evs evs' : logged (logged w evs) evs' = logged w (evs ++ evs').
Proof. unfold logged. simpl. by rewrite app_assoc. Qed.

(** A question whose rows can be read yields its outcome whatever the list
    of earlier outcomes and the world, and only adds records to the log. *)
Lemma evaluate_one_run (g : graph) (cq : gmap string value)
    (results : list (gmap string value)) (w : world) :
  read_fails query g cq = false ->
  exists evs, evaluate_one g cq results w = (Ret (outcome_of query g cq), logged w evs).
Proof.
  unfold read_fails, outcome_of, validator.validate_with_competency_question.
  destruct (query g (get cq "sparql" (Str_ ""))) as [msg | b | rs | rs msg]; intros Hr.
  - eexists [_]. reflexivity.
  - exists []. by rewrite logged_nil.
  - exists []. by rewrite logged_nil.
  - discriminate.
Qed.

(** A failure while the rows are read leaves the function as it is. *)
Lemma evaluate_one_aborts (g : graph) (cq : gmap string value)
    (results : list (gmap string value)) (w : world) (rs : list row) (msg : string) :
  query g (get cq "sparql" (Str_ "")) = QueryRowsRaise rs msg ->
  evaluate_one g cq results w = (Raise (Exception msg), w).
Proof.
  intros Hq. unfold validator.validate_with_competency_question. by rewrite Hq.
Qed.

Lemma read_fails_inv (g : graph) (cq : gmap string value) :
  read_fails query g cq = true ->
  exists rs msg, query g (get cq "sparql" (Str_ "")) = QueryRowsRaise rs msg.
Proof.
  unfold read_fails. destruct (query g _) as [| | | rs msg]; try discriminate.
  intros _. by exists rs, msg.
Qed.

(** Whatever its result, a question only adds records of the questions
    to the log. *)
Lemma evaluate_one_logs (g : graph) (cq : gmap string value)
    (results : list (gmap string value)) (w : world) :
  exists evs,
    snd (evaluate_one g cq results w) = logged w evs /\
    forallb is_question_event evs = true.
Proof.
  unfold validator.validate_with_competency_question.
  destruct (query g (get cq "sparql" (Str_ ""))) as [msg | b | rs | rs msg].
  - eexists [_]. split; reflexivity.
  - exists []. by rewrite logged_nil.
  - exists []. by rewrite logged_nil.
  - exists []. by rewrite logged_nil.
Qed.

Lemma for_cq_logs (g : graph) (cqs results : list (gmap string value))
    (passed_count : nat) (w : world) :
  exists evs,
    snd (validator.for_cq query g cqs results passed_count w) = logged w evs /\
    forallb is_question_event evs = true.
Proof.
  revert results passed_count w.
  induction cqs as [| cq rest IH]; intros results passed_count w.
  - exists []. by rewrite logged_nil.
  - cbn [validator.for_cq]. unfold bind at 1.
    destruct (evaluate_one_logs g cq results w) as (evs1 & H1 & Hq1).
    destruct (evaluate_one g cq results w) as [[output | e] w1]; cbn [snd] in H1; subst w1.
    + unfold bind at 1, emit_log at 1.
      match goal with |- context [validator.for_cq _ _ _ ?r ?c ?w'] =>
        destruct (IH r c w') as (evs2 & -> & Hq2) end.
      eexists (evs1 ++ _ :: evs2). split.
      * unfold logged. cbn [files LOG llm_calls]. by rewrite <- !app_assoc.
      * rewrite forallb_app, Hq1. cbn [forallb is_question_event andb]. exact Hq2.
    + by exists evs1.
Qed.

(** The evaluator changes nothing but the log, where it adds records of
    the questions only, also when it raises. *)
Lemma evaluate_logs (ttl_text : string) (cqs : list (gmap string value)) (w : world) :
  exists evs,
    snd (evaluate ttl_text cqs w) = logged w evs /\
    forallb is_question_event evs = true.
Proof.
  unfold validator.validate_with_competency_questions.
  destruct (parse ttl_text) as [g | e]; [| exists []; by rewrite logged_nil].
  unfold bind at 1, emit_log at 1. unfold bind at 1.
  match goal with |- context [validator.for_cq _ _ _ ?r ?c ?w'] =>
    destruct (for_cq_logs g cqs r c w') as (evs & H1 & Hq);
    destruct (validator.for_cq query g cqs r c w') as [[st | e] w1]
  end; cbn [snd] in H1; subst w1.
  - eexists (_ :: evs ++ [_]). split.
    + unfold bind, emit_log, ret, logged. cbn [snd files LOG llm_calls].
      by rewrite <- !app_assoc.
    + cbn [forallb is_question_event andb]. rewrite forallb_app, Hq. reflexivity.
  - eexists (_ :: evs). split.
    + unfold logged. cbn [snd files LOG llm_calls]. by rewrite <- !app_assoc.
    + cbn [forallb is_question_event andb]. exact Hq.
Qed.

(** The evaluator has no [sys.exit]. *)
Lemma evaluate_one_never_exits (g : graph) (cq : gmap string value)
    (results : list (gmap string value)) (w : world) (code : Z) :
  fst (evaluate_one g cq results w) <> Raise (SystemExit code).
Proof.
  unfold validator.validate_with_competency_question.
  by destruct (query g (get cq "sparql" (Str_ ""))).
Qed.

Lemma for_cq_never_exits (g : graph) (cqs results : list (gmap string value))
    (passed_count : nat) (w : world) (code : Z) :
  fst (validator.for_cq query g cqs results passed_count w) <> Raise (SystemExit code).
Proof.
  revert results passed_count w.
  induction cqs as [| cq rest IH]; intros results passed_count w; [done |].
  cbn [validator.for_cq]. unfold bind at 1.
  pose proof (evaluate_one_never_exits g cq results w code) as H1.
  destruct (evaluate_one g cq results w) as [[output | e] w1];
    [| cbn [fst] in *; intros [= ->]; by apply H1].
  unfold bind at 1, emit_log at 1. apply IH.
Qed.

Lemma evaluate_never_exits (ttl_text : string) (cqs : list (gmap string value))
    (w : world) (code : Z) :
  fst (evaluate ttl_text cqs w) <> Raise (SystemExit code).
Proof.
  unfold validator.validate_with_competency_questions.
  destruct (parse ttl_text) as [g | e]; [| done].
  unfold bind at 1, emit_log at 1. unfold bind at 1.
  match goal with |- context [validator.for_cq _ _ _ ?r ?c ?w'] =>
    pose proof (for_cq_never_exits g cqs r c w' code) as H1;
    destruct (validator.for_cq query g cqs r c w') as [[st | e] w1]
  end; [done | cbn [fst] in *; intros [= ->]; by apply H1].
Qed.

Lemma outcome_of_has_passed (g : graph) (cq : gmap string value) :
  read_fails query g cq = false ->
  exists p : bool, outcome_of query g cq !! "passed" = Some (Bool_ p).
Proof.
  unfold read_fails, outcome_of, validator.validate_with_competency_question.
  destruct (query g (get cq "sparql" (Str_ ""))) as [msg | b | rs | rs msg]; simpl;
    intros Hr.
  - exists false. by rewrite !lookup_insert_ne, lookup_insert_eq by done.
  - eexists. by rewrite lookup_insert_ne, lookup_insert_eq by done.
  - eexists. by rewrite lookup_insert_eq.
  - discriminate.
Qed.

(** The test [output and output.get("passed", True)] of the loop. *)
Lemma passed_test (g : graph) (cq : gmap string value) :
  read_fails query g cq = false ->
  let output := outcome_of query g cq in
  negb (bool_decide (output = ∅)) && truthy (get output "passed" (Bool_ true))
  = is_passed output.
Proof.
  intros Hr output. destruct (outcome_of_has_passed g cq Hr) as [p Hp].
  fold output in Hp. unfold is_passed, get. rewrite Hp.
  assert (Hne : output <> ∅).
  { intros He. rewrite He in Hp. by rewrite lookup_empty in Hp. }
  rewrite (bool_decide_eq_false_2 _ Hne).
  by destruct p.
Qed.

Lemma for_cq_run (g : graph) (cqs results : list (gmap string value))
    (passed_count : nat) (w : world) :
  Forall (fun cq => read_fails query g cq = false) cqs ->
  exists evs,
    validator.for_cq query g cqs results passed_count w =
    (Ret (results ++ map (outcome_of query g) cqs,
          passed_count + length (filter (fun e => is_passed e = true)
                                   (map (outcome_of query g) cqs))),
     logged w evs).
Proof.
  intros Hall. revert results passed_count w.
  induction Hall as [| cq rest Hr _ IH]; intros results passed_count w.
  - exists []. simpl. unfold ret.
    by rewrite logged_nil, app_nil_r, Nat.add_0_r.
  - cbn [validator.for_cq]. unfold bind at 1.
    destruct (evaluate_one_run g cq results w Hr) as [evs1 ->].
    rewrite (passed_test g cq Hr). unfold bind at 1, emit_log at 1.
    match goal with |- context [validator.for_cq _ _ _ ?r ?c ?w'] =>
      destruct (IH r c w') as [evs2 ->] end.
    eexists (evs1 ++ _ :: evs2). f_equal.
    + f_equal. f_equal.
      * by rewrite <- app_assoc.
      * cbn [map]. rewrite filter_cons.
        destruct (decide (is_passed (outcome_of query g cq) = true)) as [-> | Hn].
        -- simpl. lia.
        -- apply not_true_is_false in Hn. rewrite Hn. lia.
    + unfold logged. simpl. f_equal. rewrite <- !app_assoc. reflexivity.
Qed.

(** The loop returns only when the rows of every question were read. *)
Lemma for_cq_returns (g : graph) (cqs results : list (gmap string value))
    (passed_count : nat) (w w' : world) (st : list (gmap string value) * nat) :
  validator.for_cq query g cqs results passed_count w = (Ret st, w') ->
  Forall (fun cq => read_fails query g cq = false) cqs.
Proof.
  revert results passed_count w.
  induction cqs as [| cq rest IH]; intros results passed_count w; [by constructor |].
  cbn [validator.for_cq]. unfold bind at 1.
  destruct (read_fails query g cq) eqn:Hr.
  - destruct (read_fails_inv g cq Hr) as (rs & msg & Hq).
    by rewrite (evaluate_one_aborts g cq results w rs msg Hq).
  - destruct (evaluate_one_run g cq results w Hr) as [evs ->].
    unfold bind at 1, emit_log at 1. intros Hrun.
    constructor; [done |]. by eapply IH.
Qed.

(** A run on a parseable document whose questions can all be read: the
    report is determined by the outcomes of the questions, taken one by one
    in input order. *)
Lemma evaluate_run (ttl_text : string) (g : graph)
    (cqs : list (gmap string value)) (w : world) :
  parse ttl_text = Parsed g ->
  Forall (fun cq => read_fails query g cq = false) cqs ->
  let outcomes := map (outcome_of query g) cqs in
  let n := length (filter (fun e => is_passed e = true) outcomes) in
  exists evs,
    evaluate ttl_text cqs w =
    (Ret ((n =? length cqs)%nat,
          {| summary := {| total := length cqs; passed := n |};
             results := outcomes |}),
     logged w evs).
Proof.
  intros Hp Hall outcomes n. unfold validator.validate_with_competency_questions.
  rewrite Hp. unfold bind at 1, emit_log at 1. unfold bind at 1.
  match goal with |- context [validator.for_cq _ _ _ ?r ?c ?w'] =>
    destruct (for_cq_run g cqs r c w' Hall) as [evs ->] end.
  cbn [fst snd app Nat.add]. fold outcomes. fold n.
  eexists (_ :: evs ++ [_]). unfold bind, emit_log, ret, logged.
  cbn [files LOG llm_calls total passed]. f_equal. f_equal.
  rewrite <- !app_assoc. reflexivity.
Qed.

(** The evaluator returns only when the rows of every question were
    read. *)
Lemma evaluate_returns (ttl_text : string) (g : graph)
    (cqs : list (gmap string value)) (w w' : world) (r : bool * Report) :
  parse ttl_text = Parsed g ->
  evaluate ttl_text cqs w = (Ret r, w') ->
  Forall (fun cq => read_fails query g cq = false) cqs.
Proof.
  intros Hp. unfold validator.validate_with_competency_questions.
  rewrite Hp. unfold bind at 1, emit_log at 1. unfold bind at 1.
  match goal with |- context [validator.for_cq _ _ _ ?r ?c ?w'] =>
    destruct (validator.for_cq query g cqs r c w') as [[st | e] w1] eqn:Hrun
  end; [| discriminate].
  intros _. by eapply for_cq_returns.
Qed.

(** C5. On a parseable document the evaluator returns a report when the
    rows of every question can be read, and every report it returns has
    [passed] the number of outcomes with [passed] true and [total] the
    number of outcomes and of questions, so [passed <= total]; the returned
    boolean is true iff [passed = total], hence for no question. *)
Theorem report_summary_counts (ttl_text : string) (g : graph)
    (cqs : list (gmap string value)) (w : world) :
  parse ttl_text = Parsed g ->
  (Forall (fun cq => read_fails query g cq = false) cqs ->
   exists (ok : bool) (report : Report) (evs : list log_event),
     evaluate ttl_text cqs w = (Ret (ok, report), logged w evs)) /\
  (forall (ok : bool) (report : Report) (w' : world),
     evaluate ttl_text cqs w = (Ret (ok, report), w') ->
     passed (summary report) =
       length (filter (fun e => is_passed e = true) (results report)) /\
     total (summary report) = length (results report) /\
     length (results report) = length cqs /\
     passed (summary report) <= total (summary report) /\
     (ok = true <-> passed (summary report) = total (summary report)) /\
     (cqs = [] -> ok = true)).
Proof.
  intros Hp. split.
  - intros Hall. destruct (evaluate_run ttl_text g cqs w Hp Hall) as [evs Hrun].
    by do 3 eexists.
  - intros ok report w' Hret.
    pose proof (evaluate_returns ttl_text g cqs w w' (ok, report) Hp Hret) as Hall.
    destruct (evaluate_run ttl_text g cqs w Hp Hall) as [evs Hrun].
    rewrite Hrun in Hret. injection Hret as <- <- _.
    cbn [summary results total passed]. rewrite length_map.
    assert (Hle : length (filter (fun e => is_passed e = true)
                            (map (outcome_of query g) cqs)) <= length cqs).
    { etrans; [apply length_filter |]. by rewrite length_map. }
    repeat split; try done.
    + by intros ?%Nat.eqb_eq.
    + by intros ->%Nat.eqb_eq.
    + by intros ->.
Qed.


End evaluator.

Section consistency.

Context {graph : Type}.
Variable sync_reasoner_pellet : graph -> reasoner_result.

Abbreviation check_consistency := (validator.check_consistency sync_reasoner_pellet).


End consistency.

Section pipeline.

Context {graph : Type}.
Variable parse : string -> parse_result graph.
Variable query : graph -> value -> query_result.
Variable sync_reasoner_pellet : graph -> reasoner_result.
Variable yaml_safe_load : string -> option (list (gmap string value)).
Variable json_dump : Report -> string.
Variable open_error : string -> option string.
Variable str_of_list : list scalar -> string.
Variable LLM_MODEL : option string.
Variable chat_completions_create : nat -> string -> string -> string -> llm_reply.
Variable split_response : string -> string.

Abbreviation validate_output :=
  (generate_ontology.validate_output parse query yaml_safe_load json_dump open_error str_of_list).
Abbreviation validator_main :=
  (validator.main parse query sync_reasoner_pellet yaml_safe_load).

(** Validation of a file that does not parse: one [ttl_invalid] record,
    then the fixed message. *)
Lemma validate_output_rejects (tpath dest ttl_text e : string) (w : world) :
  files w !! tpath = Some ttl_text ->
  parse ttl_text = ParseError e ->
  validate_output tpath dest w =
    (Ret (Some "Failed to load Turtle file."), logged w [ttl_invalid tpath e]).
Proof.
  intros Hf Hp.
  unfold generate_ontology.validate_output, validator.validate_ttl.
  unfold bind, read_file. rewrite Hf, Hp. reflexivity.
Qed.

Lemma validator_main_raises (tpath cqs_file ttl_text e : string) (w : world) :
  files w !! tpath = Some ttl_text ->
  parse ttl_text = ParseError e ->
  validator_main tpath cqs_file w =
    (Raise (Exception e), logged w [ttl_invalid tpath e]).
Proof.
  intros Hf Hp. unfold validator.main, validator.validate_ttl.
  unfold bind, read_file. rewrite Hf, Hp. cbn. rewrite Hf, Hp. reflexivity.
Qed.

(** C7, as amended. On a document that does not parse, [validate_output]
    returns the fixed message and [validator.main] stops with the parser's
    exception; in both the only effect is the [ttl_invalid] record: the
    reasoner and the competency questions are not run, and no report is
    built or written. *)
Theorem syntax_failure_is_a_gate (tpath dest cqs_file ttl_text e : string) (w : world) :
  files w !! tpath = Some ttl_text ->
  parse ttl_text = ParseError e ->
  validate_output tpath dest w =
    (Ret (Some "Failed to load Turtle file."), logged w [ttl_invalid tpath e]) /\
  validator_main tpath cqs_file w =
    (Raise (Exception e), logged w [ttl_invalid tpath e]).
Proof.
  intros Hf Hp. split.
  - by apply validate_output_rejects with ttl_text.
  - by apply validator_main_raises with ttl_text.
Qed.

End pipeline.

(** ** Requests made by the correction loop *)

Section calls.

Lemma no_calls_ret {A} (a : A) : no_calls (ret a).
Proof. by intros w. Qed.

Lemma no_calls_raise {A} (e : exn) : no_calls (raise (A := A) e).
Proof. by intros w. Qed.

Lemma no_calls_bind {A B} (m : M A) (k : A -> M B) :
  no_calls m -> (forall a, no_calls (k a)) -> no_calls (bind m k).
Proof.
  intros Hm Hk w. unfold bind. specialize (Hm w).
  destruct (m w) as [[a | e] w1]; simpl in *; [| done].
  by rewrite Hk.
Qed.

Lemma one_call_bind {A B} (m : M A) (k : A -> M B) :
  one_call m -> (forall a, no_calls (k a)) -> one_call (bind m k).
Proof.
  intros Hm Hk w. unfold bind. specialize (Hm w).
  destruct (m w) as [[a | e] w1]; simpl in *; [| done].
  by rewrite Hk.
Qed.

Lemma no_calls_emit_log ev : no_calls (emit_log ev).
Proof. by intros w. Qed.

Lemma no_calls_read_file path : no_calls (read_file path).
Proof. intros w. unfold read_file. by destruct (files w !! path). Qed.

Lemma no_calls_write_file path s : no_calls (write_file path s).
Proof. by intros w. Qed.

Lemma no_calls_append_file path s : no_calls (append_file path s).
Proof. by intros w. Qed.

Create HintDb calls.

#[local] Hint Resolve no_calls_ret no_calls_raise no_calls_emit_log
  no_calls_read_file no_calls_write_file no_calls_append_file : calls.

Ltac no_calls_step :=
  first [ apply no_calls_bind; [| intros ?] | solve [auto with calls] ].

Context {graph : Type}.
Variable parse : string -> parse_result graph.
Variable query : graph -> value -> query_result.
Variable yaml_safe_load : string -> option (list (gmap string value)).
Variable json_dump : Report -> string.
Variable open_error : string -> option string.
Variable str_of_list : list scalar -> string.
Variable LLM_MODEL : option string.
Variable chat_completions_create : nat -> string -> string -> string -> llm_reply.
Variable split_response : string -> string.

Abbreviation validate_output' :=
  (generate_ontology.validate_output parse query yaml_safe_load json_dump open_error str_of_list).
Abbreviation call_llm :=
  (generate_ontology.call_llm LLM_MODEL chat_completions_create).
Abbreviation llm_fix_once :=
  (generate_ontology.llm_fix_once parse query yaml_safe_load json_dump open_error str_of_list
     LLM_MODEL chat_completions_create split_response).
Abbreviation llm_fix_and_validate :=
  (generate_ontology.llm_fix_and_validate parse query yaml_safe_load json_dump open_error
     str_of_list LLM_MODEL chat_completions_create split_response).

Lemma no_calls_validate_ttl path : no_calls (validator.validate_ttl parse path).
Proof.
  unfold validator.validate_ttl. no_calls_step; [no_calls_step |].
  destruct (parse a); repeat no_calls_step.
Qed.

Lemma no_calls_evaluate ttl_text cqs :
  no_calls (validator.validate_with_competency_questions parse query ttl_text cqs).
Proof.
  intros w. by destruct (evaluate_logs parse query ttl_text cqs w) as (evs & -> & _).
Qed.

Lemma no_calls_evaluate_file ttl_file cq_file :
  no_calls (validator.validate_with_competency_questions_file
              parse query yaml_safe_load ttl_file cq_file).
Proof.
  unfold validator.validate_with_competency_questions_file, validator._load_json.
  no_calls_step; [no_calls_step |].
  no_calls_step; [| apply no_calls_evaluate].
  no_calls_step; [no_calls_step |].
  destruct (yaml_safe_load a0); no_calls_step.
Qed.

Lemma no_calls_log_report report out :
  no_calls (validator.log_report json_dump open_error str_of_list report out).
Proof.
  unfold validator.log_report. no_calls_step; [| no_calls_step].
  destruct (open_error _); repeat no_calls_step.
Qed.

Lemma no_calls_validate_output tpath dest : no_calls (validate_output' tpath dest).
Proof.
  unfold generate_ontology.validate_output.
  no_calls_step; [apply no_calls_validate_ttl |].
  destruct a; simpl; [| no_calls_step].
  no_calls_step; [apply no_calls_evaluate_file |].
  destruct (fst a); simpl; [no_calls_step |].
  no_calls_step; [apply no_calls_log_report | no_calls_step].
Qed.

Lemma no_calls_save_outputs json_text ttl_text dest out_prefix :
  no_calls (generate_ontology.save_outputs json_text ttl_text dest out_prefix).
Proof. unfold generate_ontology.save_outputs. repeat no_calls_step. Qed.

Lemma one_call_call_llm system_prompt text dest model :
  one_call (call_llm system_prompt text dest model).
Proof.
  intros w. unfold generate_ontology.call_llm, bind, append_file. cbn.
  by destruct (chat_completions_create _ _ _ _).
Qed.

Lemma one_call_try_exit {A} (m : M A) (code : Z) :
  one_call m ->
  one_call (generate_ontology.try_except m (fun _ => raise (SystemExit code))).
Proof.
  intros Hm w. unfold generate_ontology.try_except. specialize (Hm w).
  by destruct (m w) as [[a | [c | msg]] w1].
Qed.

(** Every pass through the body of [llm_fix_and_validate] sends one request. *)
Lemma one_call_llm_fix_once content dest error_msg :
  one_call (llm_fix_once content dest error_msg).
Proof.
  unfold generate_ontology.llm_fix_once.
  apply one_call_bind; [apply one_call_try_exit, one_call_call_llm |].
  intros fixed. no_calls_step; [apply no_calls_save_outputs |].
  no_calls_step; [apply no_calls_validate_output | no_calls_step].
Qed.

(** [llm_fix_and_validate] is total, and from [step <= max_steps] it sends
    at least one request and at most [max_steps - step + 1]. *)
Lemma llm_fix_and_validate_calls content dest error_msg step max_steps w :
  let w' := snd (llm_fix_and_validate content dest error_msg step max_steps w) in
  llm_calls w < llm_calls w' <= llm_calls w + S (max_steps - step).
Proof.
  funelim (llm_fix_and_validate content dest error_msg step max_steps w);
    simpl;
    match goal with
    | Heq : llm_fix_once _ _ _ ?w0 = _ |- _ =>
        pose proof (one_call_llm_fix_once content dest error_msg w0) as H1;
        rewrite Heq in H1; simpl in H1
    end; lia.
Qed.

End calls.

(** ** The loop on replies that never validate *)

Section loop_bound.

Context {graph : Type}.
Variable parse : string -> parse_result graph.
Variable query : graph -> value -> query_result.
Variable yaml_safe_load : string -> option (list (gmap string value)).
Variable json_dump : Report -> string.
Variable open_error : string -> option string.
Variable str_of_list : list scalar -> string.
Variable LLM_MODEL : option string.
Variable chat_completions_create : nat -> string -> string -> string -> llm_reply.
Variable split_response : string -> string.

(** A whole run sends at most [max_steps + 2] requests: the generation and
    [max_steps + 1] fixes. *)
Lemma llm_setup_and_validate_calls (args : generate_ontology.Args) (w : world) :
  let w' := snd (generate_ontology.llm_setup_and_validate parse query yaml_safe_load
                   json_dump open_error str_of_list LLM_MODEL chat_completions_create
                   split_response args w) in
  llm_calls w' <= llm_calls w + 2 + generate_ontology.default_max_steps.
Proof.
  unfold generate_ontology.llm_setup_and_validate.
  destruct (negb _ && negb _); [simpl; lia |].
  unfold bind at 1.
  match goal with |- context [(if ?c then ?a else ?b) w] =>
    assert (Ht : no_calls (if c then a else b))
      by (destruct c; [apply no_calls_read_file | apply no_calls_ret]);
    specialize (Ht w); destruct ((if c then a else b) w) as [[txt | e] w1]
  end; simpl in *; [| lia].
  unfold bind at 1.
  pose proof (no_calls_read_file (generate_ontology.system args) w1) as Hs.
  unfold generate_ontology.load_system_prompt.
  destruct (read_file _ w1) as [[sp | e] w2]; simpl in *; [| lia].
  unfold bind at 1.
  match goal with |- context [generate_ontology.try_except ?m ?h w2] =>
    pose proof (one_call_try_exit m 1
                  (one_call_call_llm LLM_MODEL chat_completions_create _ _ _ _) w2) as Hc;
    destruct (generate_ontology.try_except m h w2) as [[content | e] w3]
  end; simpl in *; [| lia].
  unfold bind at 1.
  pose proof (no_calls_save_outputs content
                (generate_ontology.ttl_of split_response content)
                (generate_ontology.dest args) (generate_ontology.name args) w3) as Hsv.
  destruct (generate_ontology.save_outputs _ _ _ _ w3) as [[paths | e] w4];
    simpl in *; [| lia].
  unfold bind at 1.
  pose proof (no_calls_validate_output parse query yaml_safe_load json_dump open_error
                str_of_list (snd paths) (generate_ontology.dest args) w4) as Hv.
  destruct (generate_ontology.validate_output _ _ _ _ _ _ _ _ w4)
    as [[error_msg | e] w5]; simpl in *; [| lia].
  destruct (_ && _); [| simpl; lia].
  pose proof (llm_fix_and_validate_calls parse query yaml_safe_load json_dump open_error
                str_of_list LLM_MODEL chat_completions_create split_response
                (generate_ontology.ttl_of split_response content)
                (generate_ontology.dest args) (default "" error_msg)
                0 generate_ontology.default_max_steps w5) as Hl.
  simpl in Hl.
  assert (Hd : generate_ontology.default_max_steps = 3) by reflexivity.
  lia.
Qed.

(** When no document parses and the endpoint always answers, every pass
    is rejected with the fixed message. *)
Hypothesis parse_rejects : forall s, exists e, parse s = ParseError e.
Hypothesis llm_replies :
  forall n m s u, exists c, chat_completions_create n m s u = Reply c.

Lemma call_llm_replies (system_prompt text dest : string) (model : option string)
    (w : world) :
  exists c w1,
    generate_ontology.call_llm LLM_MODEL chat_completions_create
      system_prompt text dest model w = (Ret c, w1) /\
    llm_calls w1 = S (llm_calls w).
Proof.
  unfold generate_ontology.call_llm, bind, append_file. cbn [files LOG llm_calls].
  match goal with |- context [chat_completions_create ?n ?m ?s ?u] =>
    pose proof (llm_replies n m s u) as Hc end.
  destruct Hc as [c Hc]. rewrite Hc. by do 2 eexists.
Qed.

Lemma save_outputs_run (json_text ttl_text dest out_prefix : string) (w : world) :
  exists w1,
    generate_ontology.save_outputs json_text ttl_text dest out_prefix w =
      (Ret (path_join dest (out_prefix +:+ ".md"),
            path_join dest (out_prefix +:+ ".ttl")), w1) /\
    files w1 !! path_join dest (out_prefix +:+ ".ttl") = Some ttl_text /\
    llm_calls w1 = llm_calls w.
Proof.
  eexists. split; [reflexivity |]. simpl. by rewrite lookup_insert_eq.
Qed.

Lemma llm_fix_once_rejected (content dest error_msg : string) (w : world) :
  exists fixed w',
    generate_ontology.llm_fix_once parse query yaml_safe_load json_dump open_error str_of_list
      LLM_MODEL chat_completions_create split_response content dest error_msg w
    = (Ret (fixed, Some "Failed to load Turtle file."), w') /\
    llm_calls w' = S (llm_calls w).
Proof.
  unfold generate_ontology.llm_fix_once.
  unfold bind at 1. unfold generate_ontology.try_except.
  match goal with |- context [generate_ontology.call_llm _ _ ?s ?t ?d ?m w] =>
    pose proof (call_llm_replies s t d m w) as Hc end.
  destruct Hc as (c & w1 & Hc & Hn1). rewrite Hc.
  unfold bind at 1.
  destruct (save_outputs_run c (generate_ontology.ttl_of split_response c)
              dest "fixed_output" w1) as (w2 & Hs & Hf & Hn2).
  rewrite Hs. cbn [snd]. unfold bind at 1.
  destruct (parse_rejects (generate_ontology.ttl_of split_response c)) as [e Hp].
  rewrite (validate_output_rejects parse query yaml_safe_load json_dump open_error str_of_list
             _ dest _ e w2 Hf Hp).
  do 2 eexists. split; [reflexivity |]. simpl. congruence.
Qed.

(** Then [llm_fix_and_validate] uses the whole budget, which is
    [max_steps - step + 1] requests. *)
Lemma llm_fix_and_validate_exhausts content dest error_msg step max_steps w :
  step <= max_steps ->
  llm_calls (snd (generate_ontology.llm_fix_and_validate parse query yaml_safe_load
                    json_dump open_error str_of_list LLM_MODEL chat_completions_create
                    split_response content dest error_msg step max_steps w))
  = llm_calls w + S (max_steps - step).
Proof.
  funelim (generate_ontology.llm_fix_and_validate parse query yaml_safe_load
             json_dump open_error str_of_list LLM_MODEL chat_completions_create
             split_response content dest error_msg step max_steps w);
    intros Hle;
    match goal with
    | Heq : generate_ontology.llm_fix_once _ _ _ _ _ _ _ _ _ ?c ?d ?e ?w0 = _ |- _ =>
        destruct (llm_fix_once_rejected c d e w0) as (fx & w1 & Hrun & Hcalls);
        rewrite Hrun in Heq; inversion Heq; subst
    end;
    try match goal with
        | IH : _ -> llm_calls _ = _ |- _ => rewrite IH by lia
        end;
    try discriminate; simpl; lia.
Qed.

End loop_bound.


(** C1. With the default [max_steps = 3] and replies that never parse, a
    run of [llm_setup_and_validate] sends five requests, the generation and
    four fixes, and validates five documents; [llm_fix_and_validate] alone
    sends four requests. *)
Theorem four_fixes_for_three_steps :
  let run := generate_ontology.llm_setup_and_validate reject_all toy_query no_yaml
               no_json always_opens no_repr None stubborn_llm no_split recursive_args start_world in
  let fixes := generate_ontology.llm_fix_and_validate reject_all toy_query no_yaml
                 no_json always_opens no_repr None stubborn_llm no_split
                 "@prefix : <" "dest" "Failed to load Turtle file." 0 3 empty_world in
  generate_ontology.default_max_steps = 3 /\
  fst run = Ret tt /\
  llm_calls (snd run) = 1 + 4 /\
  validate_cycles (snd run) = 1 + 4 /\
  llm_calls (snd fixes) = 4.
Proof. vm_compute. repeat split; reflexivity. Qed.

(** ** The statements on concrete inputs *)

Lemma ask_result_is_counted_witness :
  exists entry,
    validator.validate_with_competency_question toy_query tt open_cq [] empty_world
      = (Ret entry, empty_world) /\
    entry !! "actual" = Some (Seq [SStr "False"]) /\
    (open_cq !! "expected" = None \/ open_cq !! "expected" = Some None_ ->
       entry !! "passed" = Some (Bool_ true)) /\
    (forall e : bool, open_cq !! "expected" = Some (Bool_ e) ->
       entry !! "passed" = Some (Bool_ e)).
Proof.
  apply (ask_result_is_counted toy_query tt open_cq [] empty_world false). reflexivity.
Defined.

Lemma select_count_passed_iff_witness :
  exists entry,
    validator.validate_with_competency_question toy_query tt count_cq [] empty_world
      = (Ret entry, empty_world) /\
    entry !! "actual" = Some (Seq [SStr "a"; SStr "b"; SStr "a"]) /\
    entry !! "passed" = Some (Bool_ true).
Proof.
  apply (select_count_passed_iff toy_query tt count_cq [] empty_world
           [RowDict [SStr "a"]; RowDict [SStr "b"]; RowDict [SStr "a"]] 3);
    reflexivity.
Defined.

Lemma select_set_passed_iff_witness :
  exists (entry : gmap string value) (p : bool),
    validator.validate_with_competency_question toy_query tt set_cq [] empty_world
      = (Ret entry, empty_world) /\
    entry !! "passed" = Some (Bool_ p) /\
    (p = true <->
     forall s : string, s ∈ ["a"; "b"; "a"] <-> s ∈ ["b"; "a"]).
Proof.
  apply (select_set_passed_iff toy_query tt set_cq [] empty_world
           [RowDict [SStr "a"]; RowDict [SStr "b"]; RowDict [SStr "a"]]
           [SStr "b"; SStr "a"]);
    reflexivity.
Defined.

Lemma select_bool_expected_is_count_witness :
  exists entry,
    validator.validate_with_competency_question toy_query tt flag_cq [] empty_world
      = (Ret entry, empty_world) /\
    entry !! "passed" = Some (Bool_ true).
Proof.
  apply (select_bool_expected_is_count toy_query tt flag_cq [] empty_world [] false);
    reflexivity.
Defined.

Lemma report_summary_counts_witness :
  exists (ok : bool) (report : Report) (evs : list log_event),
    validator.validate_with_competency_questions accept_all toy_query
      "" five_questions empty_world = (Ret (ok, report), logged empty_world evs) /\
    passed (summary report) =
      length (filter (fun e => is_passed e = true) (results report)) /\
    total (summary report) = length (results report) /\
    length (results report) = length five_questions /\
    passed (summary report) <= total (summary report) /\
    (ok = true <-> passed (summary report) = total (summary report)) /\
    (five_questions = [] -> ok = true).
Proof.
  destruct (report_summary_counts accept_all toy_query "" tt five_questions empty_world
              eq_refl) as [Hreturns Hcounts].
  assert (Hall : Forall (fun cq => read_fails toy_query tt cq = false) five_questions)
    by (repeat constructor).
  destruct (Hreturns Hall) as (ok & report & evs & Hrun).
  exists ok, report, evs. split; [exact Hrun |]. exact (Hcounts ok report _ Hrun).
Defined.


(** An exception without text is recorded with the empty string as its
    [error]. *)
Lemma empty_error_message_counterexample :
  silent_query tt (get bad_cq "sparql" (Str_ "")) = QueryRaises "" /\
  exists (ok : bool) (report : Report) (w' : world) (entry : gmap string value),
    validator.validate_with_competency_questions accept_all silent_query
      "" [bad_cq] empty_world = (Ret (ok, report), w') /\
    results report = [entry] /\
    entry !! "passed" = Some (Bool_ false) /\
    entry !! "error" = Some (Str_ "") /\
    ~ (exists s : string, s <> "" /\ entry !! "error" = Some (Str_ s)).
Proof.
  split; [reflexivity |].
  do 4 eexists. split; [vm_compute; reflexivity |]. split; [reflexivity |].
  split; [reflexivity |]. split; [reflexivity |].
  intros (s & Hs & He). vm_compute in He. congruence.
Qed.

Lemma syntax_failure_is_a_gate_witness :
  generate_ontology.validate_output reject_all toy_query no_yaml no_json always_opens no_repr
    "dest/output.ttl" "dest" broken_file_world =
    (Ret (Some "Failed to load Turtle file."),
     logged broken_file_world [ttl_invalid "dest/output.ttl" "Bad syntax"]) /\
  validator.main reject_all toy_query two_classes no_yaml
    "dest/output.ttl" "cqs_example.json" broken_file_world =
    (Raise (Exception "Bad syntax"),
     logged broken_file_world [ttl_invalid "dest/output.ttl" "Bad syntax"]).
Proof.
  apply (syntax_failure_is_a_gate reject_all toy_query two_classes no_yaml no_json always_opens
           no_repr "dest/output.ttl" "dest" "cqs_example.json" "@prefix : <"
           "Bad syntax" broken_file_world);
    reflexivity.
Defined.

(** C7, as stated, fails: on an unparseable document [validate_output]
    returns a bare message, and no report, empty or not, is written. *)
Lemma no_report_on_syntax_failure_counterexample :
  let r := generate_ontology.validate_output reject_all toy_query no_yaml no_json always_opens
             no_repr "dest/output.ttl" "dest" broken_file_world in
  fst r = Ret (Some "Failed to load Turtle file.") /\
  files (snd r) !! path_join "dest" "validation_report.json" = None /\
  ~ (exists report : Report,
       files (snd r) !! path_join "dest" "validation_report.json"
         = Some (no_json report) /\
       results report = [] /\
       total (summary report) = 0 /\ passed (summary report) = 0).
Proof.
  split; [reflexivity |]. split; [reflexivity |].
  intros (report & Hr & _). vm_compute in Hr. discriminate Hr.
Qed.



(** The budget is exceeded by one for any [max_steps], here 7. *)
Lemma eight_fixes_for_seven_steps (content dest error_msg : string) (w : world) :
  llm_calls (snd (generate_ontology.llm_fix_and_validate reject_all toy_query no_yaml
                    no_json always_opens no_repr None stubborn_llm no_split
                    content dest error_msg 0 7 w))
  = llm_calls w + 8.
Proof.
  apply (llm_fix_and_validate_exhausts reject_all toy_query no_yaml no_json always_opens no_repr
           None stubborn_llm no_split).
  - intros s. by exists "Bad syntax".
  - intros n m s u. by exists "Sorry.".
  - lia.
Qed.

(** * Further properties of the evaluator *)

Section outcomes.

Context {graph : Type}.
Variable query : graph -> value -> query_result.

Abbreviation evaluate_one' := (validator.validate_with_competency_question query).

(** X1. When the query returns rows and [expected] is unset or a string,
    the question passes iff at least one row is returned. *)
Theorem select_default_passed_iff (g : graph) (cq : gmap string value)
    (results : list (gmap string value)) (w : world) (rs : list row) :
  query g (get cq "sparql" (Str_ "")) = QueryRows rs ->
  (cq !! "expected" = None \/ cq !! "expected" = Some None_ \/
   exists s, cq !! "expected" = Some (Str_ s)) ->
  exists entry,
    evaluate_one' g cq results w = (Ret entry, w) /\
    entry !! "actual" = Some (Seq (map SStr (map validator._row_to_string rs))) /\
    entry !! "passed" = Some (Bool_ (negb (bool_decide (rs = [])))).
Proof.
  intros Hq He. unfold validator.validate_with_competency_question. rewrite Hq.
  assert (Hd : exists v, get cq "expected" None_ = v /\
                 (v = None_ \/ exists s, v = Str_ s)).
  { unfold get. destruct He as [-> | [-> | [s ->]]]; eauto. }
  destruct Hd as (v & -> & Hv).
  eexists. split; [reflexivity |].
  rewrite lookup_insert_eq, lookup_insert_ne, lookup_insert_eq by done.
  split; [done |]. do 2 f_equal.
  assert (Hr : (0 <? length (map validator._row_to_string rs)) =
               negb (bool_decide (rs = []))) by (by destruct rs).
  destruct Hv as [-> | [s ->]]; exact Hr.
Qed.

Lemma singleton_set_eq (s : string) (l : list string) :
  list_to_set [s] =@{gset string} list_to_set l <-> l <> [] /\ Forall (fun x => x = s) l.
Proof.
  rewrite Forall_forall. split.
  - intros Heq. split.
    + intros ->. assert (Hin : s ∈@{gset string} list_to_set [s])
        by (apply elem_of_list_to_set; left).
      rewrite Heq in Hin. by apply elem_of_list_to_set, not_elem_of_nil in Hin.
    + intros x Hx. assert (Hin : x ∈@{gset string} list_to_set l)
        by (by apply elem_of_list_to_set).
      rewrite <- Heq in Hin. by apply elem_of_list_to_set, list_elem_of_singleton in Hin.
  - intros [Hne Hall]. apply set_eq. intros x. rewrite !elem_of_list_to_set. split.
    + intros ->%list_elem_of_singleton. destruct l as [| y l]; [done |].
      rewrite (Hall y) by left. left.
    + intros Hx. apply list_elem_of_singleton. by apply Hall.
Qed.

(** X2. The answer [b] of an ASK query is read as one row, so with another
    [expected] it is judged like a SELECT: an integer passes iff it is 1, a
    string always passes, and a list passes iff it is not empty and each of
    its values has the text of the answer, [True] or [False]. *)
Theorem ask_other_expected (g : graph) (cq : gmap string value)
    (results : list (gmap string value)) (w : world) (b : bool) (v : value) :
  query g (get cq "sparql" (Str_ "")) = ask_result b ->
  cq !! "expected" = Some v ->
  exists (entry : gmap string value) (p : bool),
    evaluate_one' g cq results w = (Ret entry, w) /\
    entry !! "passed" = Some (Bool_ p) /\
    match v with
    | Scalar (SInt n) => p = (n =? 1)%Z
    | Scalar (SBool e) => p = e
    | Scalar (SStr _) | Scalar SNone => p = true
    | Seq xs => p = true <-> xs <> [] /\ Forall (fun x => py_str x = py_str (SBool b)) xs
    end.
Proof.
  intros Hq He. unfold validator.validate_with_competency_question.
  rewrite Hq, (get_lookup _ _ _ _ He). unfold ask_result. do 2 eexists.
  split; [reflexivity |]. split; [by rewrite lookup_insert_eq |].
  destruct v as [[| e | n | s] | xs]; cbn [isinstance_int map length Z.of_nat].
  - reflexivity.
  - by destruct e.
  - apply Z.eqb_sym.
  - reflexivity.
  - rewrite bool_decide_eq_true.
    change (validator._row_to_string (RowOther (if b then "True" else "False")))
      with (py_str (SBool b)).
    rewrite singleton_set_eq, Forall_fmap. split.
    + intros [Hne Hall]. split; [by intros -> | done].
    + intros [Hne Hall]. split; [by destruct xs | done].
Qed.

(** X3. Every outcome returned has a usable [id]: the question's [id] if
    that is true in a condition, else its [name] if that is, else
    ["unnamed"]; it is never [None], empty or zero. *)
Theorem outcome_id_is_set (g : graph) (cq entry : gmap string value)
    (results : list (gmap string value)) (w w' : world) :
  evaluate_one' g cq results w = (Ret entry, w') ->
  exists v : value,
    entry !! "id" = Some v /\
    truthy v = true /\
    v = (if truthy (get cq "id" None_) then get cq "id" None_
         else if truthy (get cq "name" None_) then get cq "name" None_
         else Str_ "unnamed").
Proof.
  intros Hrun. eexists. split; [| split; [| reflexivity]].
  - revert Hrun. unfold validator.validate_with_competency_question.
    destruct (query g (get cq "sparql" (Str_ ""))); cbn [fst bind emit_log ret raise];
      intros [= <- _]; by rewrite !lookup_insert_ne, lookup_insert_eq by done.
  - destruct (truthy (get cq "id" None_)) eqn:H1; [done |].
    by destruct (truthy (get cq "name" None_)) eqn:H2.
Qed.

(** X4. An outcome returned has the keys [id], [sparql], [expected],
    [question], [passed] and [actual], and the key [error] exactly when the
    query raised. *)
Theorem outcome_keys (g : graph) (cq entry : gmap string value)
    (results : list (gmap string value)) (w w' : world) :
  evaluate_one' g cq results w = (Ret entry, w') ->
  dom entry =
    list_to_set ["id"; "sparql"; "expected"; "question"; "passed"; "actual"]
    ∪ match query g (get cq "sparql" (Str_ "")) with
      | QueryRaises _ => ({["error"]} : gset string)
      | _ => ∅
      end.
Proof.
  unfold validator.validate_with_competency_question.
  destruct (query g (get cq "sparql" (Str_ ""))); cbn [fst bind emit_log ret raise];
    intros [= <- _]; rewrite !dom_insert_L, dom_empty_L; set_solver.
Qed.

End outcomes.

(** * Strings *)

Section strings.

Lemma string_app_assoc (s1 s2 s3 : string) : (s1 +:+ s2) +:+ s3 = s1 +:+ s2 +:+ s3.
Proof.
  induction s1 as [| c s IH]; [done |].
  change (String c ((s +:+ s2) +:+ s3) = String c (s +:+ s2 +:+ s3)).
  by rewrite IH.
Qed.

Lemma string_app_nil_r (s : string) : s +:+ "" = s.
Proof.
  induction s as [| c s IH]; [done |].
  change (String c (s +:+ "") = String c s). by rewrite IH.
Qed.

Lemma string_app_cons (c : ascii) (s t : string) : String c s +:+ t = String c (s +:+ t).
Proof. reflexivity. Qed.

Lemma string_app_nil_inv (s t : string) : s +:+ t = "" -> s = "" /\ t = "".
Proof. destruct s; [done | discriminate]. Qed.

End strings.

(** * The rendered report *)

Section rendering.

Context {graph : Type}.
Variable query : graph -> value -> query_result.
Variable str_of_list : list scalar -> string.

Abbreviation pretty_print_errors := (validator.pretty_print_errors str_of_list).

Lemma concat_two_lines (a b : string) (rest : list string) :
  String.concat nl (a :: b :: rest) =
  a +:+ nl +:+ b +:+ match rest with
                     | [] => ""
                     | _ => nl +:+ String.concat nl rest
                     end.
Proof.
  cbn [String.concat]. destruct rest; [by rewrite string_app_nil_r | done].
Qed.

(** The rendering is never the empty string. *)
Lemma pretty_print_errors_nonempty (report : Report) : pretty_print_errors report <> "".
Proof.
  unfold validator.pretty_print_errors. cbn [app]. rewrite concat_two_lines.
  discriminate.
Qed.

(** X5. The rendering starts with the title line and the line
    [Passed p out of t questions.]; when every result has a true [passed]
    nothing follows these two lines. *)
Theorem pretty_print_errors_header (report : Report) :
  exists rest : string,
    pretty_print_errors report =
      "Competency Questions Validation Report:" +:+ nl +:+
      ("  Passed " +:+ validator.format_nat (passed (summary report)) +:+ " out of "
         +:+ validator.format_nat (total (summary report)) +:+ " questions.") +:+ rest /\
    (Forall (fun r => truthy (get r "passed" (Bool_ false)) = true) (results report) ->
     rest = "").
Proof.
  unfold validator.pretty_print_errors. cbn [app]. rewrite concat_two_lines.
  eexists. split; [reflexivity |]. intros Hall.
  induction Hall as [| r rs Hr _ IH]; [done |].
  cbn [map concat]. rewrite Hr. cbn [negb app]. exact IH.
Qed.

Lemma outcome_of_raises (g : graph) (cq : gmap string value) (msg : string) :
  query g (get cq "sparql" (Str_ "")) = QueryRaises msg ->
  outcome_of query g cq !! "passed" = Some (Bool_ false) /\
  outcome_of query g cq !! "error" = Some (Str_ msg) /\
  outcome_of query g cq !! "actual" = Some None_ /\
  outcome_of query g cq !! "expected" = Some (get cq "expected" None_) /\
  outcome_of query g cq !! "question" = Some (get cq "question" (Str_ "")) /\
  outcome_of query g cq !! "id" =
    Some (py_or (get cq "id" None_) (py_or (get cq "name" None_) (Str_ "unnamed"))).
Proof.
  intros Hq. unfold outcome_of, validator.validate_with_competency_question.
  rewrite Hq. cbn [fst bind emit_log ret].
  repeat split; by rewrite ?lookup_insert_eq, ?lookup_insert_ne, ?lookup_insert_eq by done.
Qed.

(** X6. A question whose query raised is rendered with its id, its
    question text and an [Error:] line holding the exception's text, and no
    [Expected:]/[Actual:] lines; when that text is empty it is rendered as a
    mismatch instead, with [Actual: None]. *)
Theorem raising_query_rendering (g : graph) (cq : gmap string value) (msg : string)
    (s : Summary) :
  query g (get cq "sparql" (Str_ "")) = QueryRaises msg ->
  pretty_print_errors {| summary := s; results := [outcome_of query g cq] |} =
    String.concat nl
      ([ "Competency Questions Validation Report:";
         "  Passed " +:+ validator.format_nat (passed s) +:+ " out of "
           +:+ validator.format_nat (total s) +:+ " questions.";
         "- Question ID: " +:+
           validator.format str_of_list
             (py_or (get cq "id" None_) (py_or (get cq "name" None_) (Str_ "unnamed")));
         "  Question: " +:+ validator.format str_of_list (get cq "question" (Str_ "")) ]
       ++ if bool_decide (msg = "")
          then [ "  Expected: " +:+ validator.format str_of_list (get cq "expected" None_);
                 "  Actual: None" ]
          else [ "  Error: " +:+ msg ]).
Proof.
  intros Hq. destruct (outcome_of_raises g cq msg Hq) as (Hp & He & Ha & Hx & Hqu & Hid).
  unfold validator.pretty_print_errors. cbn [results summary map concat].
  unfold get in *. rewrite Hp, Hid, He, Hx, Ha, Hqu. cbn [truthy Bool_ Str_ negb].
  rewrite app_nil_r. destruct (decide (msg = "")) as [-> | Hne].
  - reflexivity.
  - by rewrite !(bool_decide_eq_false_2 _ Hne).
Qed.

End rendering.

(** * One validation cycle *)

Section validation.

Context {graph : Type}.
Variable parse : string -> parse_result graph.
Variable query : graph -> value -> query_result.
Variable sync_reasoner_pellet : graph -> reasoner_result.
Variable yaml_safe_load : string -> option (list (gmap string value)).
Variable json_dump : Report -> string.
Variable open_error : string -> option string.
Variable str_of_list : list scalar -> string.

Abbreviation validate_output'' :=
  (generate_ontology.validate_output parse query yaml_safe_load json_dump open_error str_of_list).

Lemma evaluate_one_events (g : graph) (cq : gmap string value)
    (results : list (gmap string value)) (w : world) :
  read_fails query g cq = false ->
  exists evs,
    validator.validate_with_competency_question query g cq results w =
      (Ret (outcome_of query g cq), logged w evs) /\
    forallb is_question_event evs = true /\
    forallb is_error_record evs = true /\
    length (filter is_error_record evs) = (if raises query g cq then 1 else 0).
Proof.
  unfold read_fails, outcome_of, raises, validator.validate_with_competency_question.
  destruct (query g (get cq "sparql" (Str_ ""))) as [msg | b | rs | rs msg]; intros Hr.
  - eexists [_]. repeat split; reflexivity.
  - exists []. by rewrite logged_nil.
  - exists []. by rewrite logged_nil.
  - discriminate.
Qed.

Lemma error_records_are_not_question_records (evs : list log_event) :
  forallb is_error_record evs = true ->
  filter is_question_record evs = [] /\
  forallb (fun ev => is_question_record ev || is_error_record ev) evs = true.
Proof.
  induction evs as [| ev evs IH]; [done |].
  cbn [forallb]. intros [Hev Hevs]%andb_prop. destruct (IH Hevs) as [H1 H2].
  rewrite filter_cons. by destruct ev; try discriminate; simpl; rewrite ?H1, ?H2.
Qed.

(** The loop over questions whose rows can be read, followed by more
    questions: the outcomes so far, their count, and the records logged. *)
Lemma for_cq_prefix (g : graph) (before rest results : list (gmap string value))
    (passed_count : nat) (w : world) :
  Forall (fun cq => read_fails query g cq = false) before ->
  exists evs,
    validator.for_cq query g (before ++ rest) results passed_count w =
      validator.for_cq query g rest
        (results ++ map (outcome_of query g) before)
        (passed_count + length (filter (fun e => is_passed e = true)
                                  (map (outcome_of query g) before)))
        (logged w evs) /\
    forallb is_question_event evs = true /\
    forallb (fun ev => is_question_record ev || is_error_record ev) evs = true /\
    length (filter is_question_record evs) = length before /\
    length (filter is_error_record evs)
      = length (filter (fun cq => raises query g cq = true) before).
Proof.
  intros Hall. revert results passed_count w.
  induction Hall as [| cq before Hr _ IH]; intros results passed_count w.
  - exists []. cbn [app map length]. rewrite filter_nil. cbn [length].
    by rewrite logged_nil, app_nil_r, Nat.add_0_r.
  - cbn [app validator.for_cq]. unfold bind at 1.
    destruct (evaluate_one_events g cq results w Hr) as (evs1 & -> & H1 & Hx1 & He1).
    destruct (error_records_are_not_question_records evs1 Hx1) as [Hq1 Hr1].
    rewrite (passed_test query g cq Hr). unfold bind at 1, emit_log at 1.
    match goal with |- context [validator.for_cq _ _ (before ++ rest) ?r ?c ?w'] =>
      destruct (IH r c w') as (evs2 & -> & H2 & Hr2 & Hq2 & He2) end.
    eexists (evs1 ++ _ :: evs2). split; [| split; [| split; [| split]]].
    + f_equal.
      * cbn [map]. by rewrite <- app_assoc.
      * cbn [map]. rewrite filter_cons.
        destruct (decide (is_passed (outcome_of query g cq) = true)) as [-> | Hn].
        -- simpl. lia.
        -- apply not_true_is_false in Hn. rewrite Hn. lia.
      * unfold logged. simpl. f_equal. rewrite <- !app_assoc. reflexivity.
    + rewrite forallb_app, H1. simpl. exact H2.
    + rewrite forallb_app, Hr1. simpl. exact Hr2.
    + rewrite filter_app, Hq1, filter_cons. simpl. by rewrite Hq2.
    + rewrite filter_app, length_app, He1, !filter_cons. cbn [is_error_record].
      destruct (raises query g cq); simpl; lia.
Qed.

Lemma for_cq_events (g : graph) (cqs results : list (gmap string value))
    (passed_count : nat) (w : world) :
  Forall (fun cq => read_fails query g cq = false) cqs ->
  exists evs,
    validator.for_cq query g cqs results passed_count w =
      (Ret (results ++ map (outcome_of query g) cqs,
            passed_count + length (filter (fun e => is_passed e = true)
                                     (map (outcome_of query g) cqs))),
       logged w evs) /\
    forallb is_question_event evs = true /\
    forallb (fun ev => is_question_record ev || is_error_record ev) evs = true /\
    length (filter is_question_record evs) = length cqs /\
    length (filter is_error_record evs)
      = length (filter (fun cq => raises query g cq = true) cqs).
Proof.
  intros Hall.
  destruct (for_cq_prefix g cqs [] results passed_count w Hall) as (evs & Hrun & Hrest).
  rewrite app_nil_r in Hrun. exists evs. split; [| exact Hrest].
  by rewrite Hrun.
Qed.

Lemma all_pass_count (g : graph) (cqs : list (gmap string value)) :
  (passed (summary (report_of query g cqs)) =? length cqs) = all_pass query g cqs.
Proof.
  unfold report_of, all_pass. cbn [summary passed].
  induction cqs as [| cq rest IH]; [done |].
  cbn [map forallb length]. rewrite filter_cons.
  destruct (decide (is_passed (outcome_of query g cq) = true)) as [Hp | Hn].
  - rewrite Hp. cbn [length andb]. exact IH.
  - apply not_true_is_false in Hn. rewrite Hn. cbn [andb].
    apply Nat.eqb_neq.
    pose proof (length_filter (fun e => is_passed e = true)
                  (map (outcome_of query g) rest)) as Hle.
    rewrite length_map in Hle. lia.
Qed.

(** Questions that all pass were all read. *)
Lemma all_pass_reads (g : graph) (cqs : list (gmap string value)) :
  all_pass query g cqs = true ->
  Forall (fun cq => read_fails query g cq = false) cqs.
Proof.
  unfold all_pass. rewrite forallb_forall, Forall_forall.
  intros Hall cq Hin. specialize (Hall cq (proj1 (list_elem_of_In _ _) Hin)).
  destruct (read_fails query g cq) eqn:Hr; [| done].
  destruct (read_fails_inv query g cq Hr) as (rs & msg & Hq).
  revert Hall. unfold outcome_of.
  by rewrite (evaluate_one_aborts query g cq [] empty_world rs msg Hq).
Qed.

(** A run of the evaluator on a parseable text whose questions can all be
    read, with its verdict and the records it logs. *)
Lemma evaluate_verdict (ttl_text : string) (g : graph)
    (cqs : list (gmap string value)) (w : world) :
  parse ttl_text = Parsed g ->
  Forall (fun cq => read_fails query g cq = false) cqs ->
  exists qevs,
    validator.validate_with_competency_questions parse query ttl_text cqs w =
      (Ret (all_pass query g cqs, report_of query g cqs),
       logged w (CQ_validation_start (length cqs) :: qevs ++
                 [CQ_validation_end (length cqs)
                    (passed (summary (report_of query g cqs)))])) /\
    forallb is_question_event qevs = true.
Proof.
  intros Hp Hall. unfold validator.validate_with_competency_questions.
  rewrite Hp. unfold bind at 1, emit_log at 1. unfold bind at 1.
  match goal with |- context [validator.for_cq _ _ _ ?r ?c ?w'] =>
    destruct (for_cq_events g cqs r c w' Hall) as (evs & -> & He & _) end.
  cbn [fst snd app Nat.add]. rewrite <- all_pass_count.
  exists evs. split; [| done].
  unfold bind, emit_log, ret, logged, report_of.
  cbn [files LOG llm_calls total passed summary]. f_equal. f_equal.
  rewrite <- !app_assoc. reflexivity.
Qed.


(** The same run, for the callers of the evaluator. *)
Lemma evaluate_aborts (ttl_text : string) (g : graph)
    (before after : list (gmap string value)) (cq : gmap string value)
    (rs : list row) (msg : string) (w : world) :
  parse ttl_text = Parsed g ->
  Forall (fun cq => read_fails query g cq = false) before ->
  query g (get cq "sparql" (Str_ "")) = QueryRowsRaise rs msg ->
  exists evs,
    validator.validate_with_competency_questions parse query ttl_text
      (before ++ cq :: after) w = (Raise (Exception msg), logged w evs).
Proof.
  intros Hp Hall Hq. unfold validator.validate_with_competency_questions.
  rewrite Hp. unfold bind at 1, emit_log at 1. unfold bind at 1.
  match goal with |- context [validator.for_cq _ _ _ ?r ?c ?w'] =>
    destruct (for_cq_prefix g before (cq :: after) r c w' Hall) as (evs & -> & _) end.
  cbn [validator.for_cq]. unfold bind at 1.
  rewrite (evaluate_one_aborts query g cq _ _ rs msg Hq).
  eexists. unfold logged. cbn [files LOG llm_calls]. by rewrite <- !app_assoc.
Qed.

(** C6. A query that is accepted by [g.query] and fails when its rows are
    read is not recorded: the exception leaves the evaluator. The questions
    after it are not evaluated, no report is returned, and the log holds
    the [CQ_validation_start] record and the records of the questions
    before it, without a [CQ_validation_end] record. *)
Theorem read_failure_aborts_batch (ttl_text : string) (g : graph)
    (before after : list (gmap string value)) (cq : gmap string value)
    (rs : list row) (msg : string) (w : world) :
  parse ttl_text = Parsed g ->
  Forall (fun cq => read_fails query g cq = false) before ->
  query g (get cq "sparql" (Str_ "")) = QueryRowsRaise rs msg ->
  exists qevs,
    validator.validate_with_competency_questions parse query ttl_text
      (before ++ cq :: after) w =
      (Raise (Exception msg),
       logged w (CQ_validation_start (length (before ++ cq :: after)) :: qevs)) /\
    forallb (fun ev => is_question_record ev || is_error_record ev) qevs = true /\
    length (filter is_question_record qevs) = length before.
Proof.
  intros Hp Hall Hq. unfold validator.validate_with_competency_questions.
  rewrite Hp. unfold bind at 1, emit_log at 1. unfold bind at 1.
  match goal with |- context [validator.for_cq _ _ _ ?r ?c ?w'] =>
    destruct (for_cq_prefix g before (cq :: after) r c w' Hall)
      as (evs & -> & _ & Hr & Hn & _) end.
  cbn [validator.for_cq]. unfold bind at 1.
  rewrite (evaluate_one_aborts query g cq _ _ rs msg Hq).
  exists evs. split; [| done].
  unfold logged. cbn [files LOG llm_calls]. by rewrite <- !app_assoc.
Qed.

Lemma question_events_are_neither (evs : list log_event) :
  forallb is_question_event evs = true ->
  filter is_ttl_check evs = [] /\
  forallb (fun ev => negb (is_consistency_event ev)) evs = true.
Proof.
  induction evs as [| ev evs IH]; [done |].
  cbn [forallb]. intros [Hev Hevs]%andb_prop. destruct (IH Hevs) as [H1 H2].
  rewrite filter_cons. by destruct ev; try discriminate; simpl; rewrite ?H1, ?H2.
Qed.

Lemma validate_output_run (tpath dest ttl_text yaml : string) (g : graph)
    (cqs : list (gmap string value)) (w : world) :
  files w !! tpath = Some ttl_text ->
  parse ttl_text = Parsed g ->
  files w !! "cqs_example.json" = Some yaml ->
  yaml_safe_load yaml = Some cqs ->
  Forall (fun cq => read_fails query g cq = false) cqs ->
  exists evs,
    validate_output'' tpath dest w =
      if all_pass query g cqs then (Ret None, logged w evs)
      else (Ret (Some (validator.pretty_print_errors str_of_list (report_of query g cqs))),
            logged (match open_error (path_join dest "validation_report.json") with
                    | None => written w (path_join dest "validation_report.json")
                                (json_dump (report_of query g cqs))
                    | Some _ => w
                    end) evs).
Proof.
  intros Hf Hp Hc Hy Hall.
  unfold generate_ontology.validate_output, validator.validate_ttl.
  unfold bind at 1. unfold bind at 1. unfold read_file at 1. rewrite Hf, Hp.
  unfold bind at 1, emit_log at 1, ret at 1. cbn [negb].
  unfold bind at 1.
  unfold validator.validate_with_competency_questions_file, validator._load_json.
  unfold bind at 1, read_file at 1. cbn [files]. rewrite Hf.
  unfold bind at 1. unfold bind at 1, read_file at 1. cbn [files]. rewrite Hc, Hy.
  unfold ret at 1.
  match goal with |- context [validator.validate_with_competency_questions _ _ _ _ ?w1] =>
    destruct (evaluate_verdict ttl_text g cqs w1 Hp Hall) as (qevs & -> & He) end.
  cbn [fst snd]. destruct (all_pass query g cqs); cbn [negb].
  - eexists. unfold ret. f_equal. unfold logged. cbn [files LOG llm_calls].
    by rewrite <- app_assoc.
  - unfold validator.log_report.
    destruct (open_error (path_join dest "validation_report.json")) as [e |];
      eexists; unfold bind, write_file, emit_log, ret, logged, written;
      cbn [files LOG llm_calls]; f_equal; f_equal; by rewrite <- !app_assoc.
Qed.


(** X28. A failure while the rows of a question are read leaves
    [validate_output] too, as an ordinary exception: the document is
    neither accepted nor rejected, and no file is written. *)
Theorem validate_output_aborts (tpath dest ttl_text yaml : string) (g : graph)
    (before after : list (gmap string value)) (cq : gmap string value)
    (rs : list row) (msg : string) (w : world) :
  files w !! tpath = Some ttl_text ->
  parse ttl_text = Parsed g ->
  files w !! "cqs_example.json" = Some yaml ->
  yaml_safe_load yaml = Some (before ++ cq :: after) ->
  Forall (fun cq => read_fails query g cq = false) before ->
  query g (get cq "sparql" (Str_ "")) = QueryRowsRaise rs msg ->
  exists evs,
    validate_output'' tpath dest w = (Raise (Exception msg), logged w evs).
Proof.
  intros Hf Hp Hc Hy Hall Hq.
  unfold generate_ontology.validate_output, validator.validate_ttl.
  unfold bind at 1. unfold bind at 1. unfold read_file at 1. rewrite Hf, Hp.
  unfold bind at 1, emit_log at 1, ret at 1. cbn [negb].
  unfold bind at 1.
  unfold validator.validate_with_competency_questions_file, validator._load_json.
  unfold bind at 1, read_file at 1. cbn [files]. rewrite Hf.
  unfold bind at 1. unfold bind at 1, read_file at 1. cbn [files]. rewrite Hc, Hy.
  unfold ret at 1.
  match goal with |- context [validator.validate_with_competency_questions _ _ _ _ ?w1] =>
    destruct (evaluate_aborts ttl_text g before after cq rs msg w1 Hp Hall Hq)
      as (qevs & ->) end.
  eexists. unfold logged. cbn [files LOG llm_calls]. by rewrite <- app_assoc.
Qed.

(** X8. A message returned by [validate_output] is never empty, so the
    test [if error_msg] of the callers holds exactly when the document was
    rejected. *)
Theorem validate_output_message_nonempty (tpath dest : string) (w w' : world)
    (r : option string) :
  validate_output'' tpath dest w = (Ret r, w') ->
  generate_ontology.truthy_opt r = true <-> r <> None.
Proof.
  intros Hrun. split; [by destruct r |]. intros Hr.
  destruct r as [msg |]; [| done]. clear Hr. cbn.
  apply negb_true_iff, bool_decide_eq_false. intros ->.
  revert Hrun. unfold generate_ontology.validate_output. unfold bind at 1.
  destruct (validator.validate_ttl parse tpath w) as [[[|] | e] w1]; cbn [negb];
    [| by intros [=] | by intros [=]].
  unfold bind at 1.
  destruct (validator.validate_with_competency_questions_file _ _ _ _ _ w1)
    as [[[ok report] | e] w2]; [| by intros [=]].
  cbn [fst snd]. destruct ok; cbn [negb]; [by intros [=] |].
  unfold validator.log_report.
  destruct (open_error _); unfold bind, write_file, emit_log, ret;
    intros Hm;
    (assert (He : validator.pretty_print_errors str_of_list report = "")
       by congruence);
    by apply (pretty_print_errors_nonempty str_of_list report).
Qed.

(** X9. When the question file [cqs_example.json] is missing,
    [validate_output] on a parseable document raises instead of returning a
    message, after the [ttl_valid] record. *)
Theorem validate_output_without_questions (tpath dest ttl_text : string) (g : graph)
    (w : world) :
  files w !! tpath = Some ttl_text ->
  parse ttl_text = Parsed g ->
  files w !! "cqs_example.json" = None ->
  validate_output'' tpath dest w =
    (Raise (Exception "FileNotFoundError"), logged w [ttl_valid tpath]).
Proof.
  intros Hf Hp Hc.
  unfold generate_ontology.validate_output, validator.validate_ttl.
  unfold bind at 1. unfold bind at 1. unfold read_file at 1. rewrite Hf, Hp.
  unfold bind at 1, emit_log at 1, ret at 1. cbn [negb].
  unfold bind at 1.
  unfold validator.validate_with_competency_questions_file, validator._load_json.
  unfold bind at 1, read_file at 1. cbn [files]. rewrite Hf.
  unfold bind at 1. unfold bind at 1, read_file at 1. cbn [files]. by rewrite Hc.
Qed.

(** The records of one validation cycle: at most one for the syntax check,
    none of the consistency checker. *)
Lemma validate_output_log (tpath dest : string) (w : world) :
  exists evs,
    LOG (snd (validate_output'' tpath dest w)) = LOG w ++ evs /\
    length (filter is_ttl_check evs) <= 1 /\
    forallb (fun ev => negb (is_consistency_event ev)) evs = true.
Proof.
  unfold generate_ontology.validate_output, validator.validate_ttl.
  unfold bind at 1. unfold bind at 1. unfold read_file at 1.
  destruct (files w !! tpath) as [ttl_text |] eqn:Hf;
    [| exists []; split; [simpl; by rewrite app_nil_r | split; [simpl; lia | done]]].
  destruct (parse ttl_text) as [g | e] eqn:Hp.
  2: { exists [ttl_invalid tpath e]. split; [reflexivity | split; [simpl; lia | done]]. }
  unfold bind at 1, emit_log at 1, ret at 1. cbn [negb].
  unfold bind at 1.
  unfold validator.validate_with_competency_questions_file, validator._load_json.
  unfold bind at 1, read_file at 1. cbn [files]. rewrite Hf.
  unfold bind at 1. unfold bind at 1, read_file at 1. cbn [files].
  destruct (files w !! "cqs_example.json") as [yaml |];
    [| exists [ttl_valid tpath]; split; [reflexivity | split; [simpl; lia | done]]].
  destruct (yaml_safe_load yaml) as [cqs |];
    [| exists [ttl_valid tpath]; split; [reflexivity | split; [simpl; lia | done]]].
  unfold ret at 1.
  match goal with |- context [validator.validate_with_competency_questions _ _ _ _ ?w1] =>
    destruct (evaluate_logs parse query ttl_text cqs w1) as (qevs & Hl & He);
    destruct (validator.validate_with_competency_questions parse query ttl_text cqs w1)
      as [[[ok report] | e] w2]
  end; cbn [snd] in Hl; subst w2.
  all: destruct (question_events_are_neither qevs He) as [Hq1 Hq2].
  - cbn [fst snd]. destruct ok; cbn [negb].
    + exists (ttl_valid tpath :: qevs). split; [| split].
      * unfold ret, logged. cbn [snd LOG]. by rewrite <- app_assoc.
      * rewrite filter_cons, Hq1. simpl. lia.
      * cbn [forallb is_consistency_event negb andb]. exact Hq2.
    + unfold validator.log_report.
      destruct (open_error (path_join dest "validation_report.json")) as [msg |].
      * eexists (ttl_valid tpath :: qevs ++ [error_ _]). split; [| split].
        -- unfold bind, emit_log, ret, logged. cbn [snd LOG].
           rewrite <- !app_assoc. reflexivity.
        -- rewrite filter_cons, filter_app, Hq1. simpl. lia.
        -- cbn [forallb is_consistency_event negb andb]. by rewrite forallb_app, Hq2.
      * eexists (ttl_valid tpath :: qevs ++ [info _]). split; [| split].
        -- unfold bind, write_file, emit_log, ret, logged. cbn [snd LOG].
           rewrite <- !app_assoc. reflexivity.
        -- rewrite filter_cons, filter_app, Hq1. simpl. lia.
        -- cbn [forallb is_consistency_event negb andb]. by rewrite forallb_app, Hq2.
  - exists (ttl_valid tpath :: qevs). split; [| split].
    + unfold logged. cbn [snd LOG]. by rewrite <- app_assoc.
    + rewrite filter_cons, Hq1. simpl. lia.
    + cbn [forallb is_consistency_event negb andb]. exact Hq2.
Qed.

(** X10. [validate_output] never logs a record of the consistency checker:
    the generation pipeline does not check consistency. *)
Theorem validate_output_skips_consistency (tpath dest : string) :
  emits_only (fun ev => negb (is_consistency_event ev)) (validate_output'' tpath dest).
Proof.
  intros w. destruct (validate_output_log tpath dest w) as (evs & H1 & _ & H3).
  by exists evs.
Qed.


End validation.

(** * Paths *)

Section paths.

Lemma path_join_relative (a b : string) :
  is_relative b = true -> path_join a b = dir_prefix a +:+ b.
Proof.
  unfold path_join, dir_prefix, is_relative.
  destruct b as [| [[] [] [] [] [] [] [] []] t]; try discriminate; intros _;
    repeat case_match; by rewrite ?string_app_assoc.
Qed.

Lemma path_join_inj (a b1 b2 : string) :
  is_relative b1 = true -> is_relative b2 = true ->
  path_join a b1 = path_join a b2 -> b1 = b2.
Proof.
  intros H1 H2. rewrite !path_join_relative by done. apply (inj (String.app _)).
Qed.

Lemma last_char_app (p b : string) : b <> "" -> last_char (p +:+ b) = last_char b.
Proof.
  intros Hb. induction p as [| c p IH]; [done |].
  rewrite string_app_cons. cbn [last_char]. rewrite IH.
  destruct (p +:+ b) eqn:He; [| done].
  by destruct (string_app_nil_inv _ _ He).
Qed.

Lemma path_join_last_char (a b : string) :
  b <> "" -> last_char (path_join a b) = last_char b.
Proof.
  intros Hb. destruct (is_relative b) eqn:Hr.
  - rewrite path_join_relative by done. by apply last_char_app.
  - unfold path_join, is_relative in *.
    by destruct b as [| [[] [] [] [] [] [] [] []] t].
Qed.

End paths.

(** * Files, log and requests of the correction loop *)

Section effects.









Lemma appends_to_ret {A} path (a : A) : appends_to path (ret a).
Proof. intros w. exists "". by rewrite string_app_nil_r. Qed.

Lemma appends_to_raise {A} path (e : exn) : appends_to path (raise (A := A) e).
Proof. intros w. exists "". by rewrite string_app_nil_r. Qed.

Lemma appends_to_emit_log path ev : appends_to path (emit_log ev).
Proof. intros w. exists "". by rewrite string_app_nil_r. Qed.

Lemma appends_to_read_file path path' : appends_to path (read_file path').
Proof.
  intros w. exists "". unfold read_file.
  destruct (files w !! path'); by rewrite string_app_nil_r.
Qed.

Lemma appends_to_write_file path path' s :
  path' <> path -> appends_to path (write_file path' s).
Proof.
  intros Hne w. exists "". cbn. by rewrite lookup_insert_ne, string_app_nil_r.
Qed.

Lemma appends_to_append_file path path' s : appends_to path (append_file path' s).
Proof.
  intros w. cbn. destruct (decide (path' = path)) as [-> | Hne].
  - exists s. rewrite lookup_insert_eq. by destruct (files w !! path).
  - exists "". by rewrite lookup_insert_ne, string_app_nil_r.
Qed.

Lemma appends_to_bind {A B} path (m : M A) (k : A -> M B) :
  appends_to path m -> (forall a, appends_to path (k a)) -> appends_to path (bind m k).
Proof.
  intros Hm Hk w. unfold bind. destruct (Hm w) as [s1 H1].
  destruct (m w) as [[a | e] w1]; simpl in *; [| by exists s1].
  destruct (Hk a w1) as [s2 H2]. exists (s1 +:+ s2).
  by rewrite H2, H1, string_app_assoc.
Qed.

Lemma appends_to_try_except {A} path (m : M A) (h : string -> M A) :
  appends_to path m -> (forall s, appends_to path (h s)) ->
  appends_to path (generate_ontology.try_except m h).
Proof.
  intros Hm Hh w. unfold generate_ontology.try_except. destruct (Hm w) as [s1 H1].
  destruct (m w) as [[a | [c | msg]] w1]; simpl in *; try by exists s1.
  destruct (Hh msg w1) as [s2 H2]. exists (s1 +:+ s2).
  by rewrite H2, H1, string_app_assoc.
Qed.

Lemma cycles_at_most_weaken {A} (k k' : nat) (m : M A) :
  k <= k' -> cycles_at_most k m -> cycles_at_most k' m.
Proof. intros Hk Hm w. specialize (Hm w). lia. Qed.

Lemma cycles_at_most_same_log {A} (m : M A) :
  (forall w, LOG (snd (m w)) = LOG w) -> cycles_at_most 0 m.
Proof. intros Hm w. unfold validate_cycles. rewrite Hm. lia. Qed.

Lemma cycles_at_most_bind {A B} (k1 k2 : nat) (m : M A) (k : A -> M B) :
  cycles_at_most k1 m -> (forall a, cycles_at_most k2 (k a)) ->
  cycles_at_most (k1 + k2) (bind m k).
Proof.
  intros Hm Hk w. unfold bind. specialize (Hm w).
  destruct (m w) as [[a | e] w1]; simpl in *; [| lia].
  specialize (Hk a w1). lia.
Qed.

End effects.

Section fix_loop.

Context {graph : Type}.
Variable parse : string -> parse_result graph.
Variable query : graph -> value -> query_result.
Variable yaml_safe_load : string -> option (list (gmap string value)).
Variable json_dump : Report -> string.
Variable open_error : string -> option string.
Variable str_of_list : list scalar -> string.
Variable LLM_MODEL : option string.
Variable chat_completions_create : nat -> string -> string -> string -> llm_reply.
Variable split_response : string -> string.

Abbreviation validate_output_ :=
  (generate_ontology.validate_output parse query yaml_safe_load json_dump open_error str_of_list).
Abbreviation call_llm_ :=
  (generate_ontology.call_llm LLM_MODEL chat_completions_create).
Abbreviation llm_fix_once_ :=
  (generate_ontology.llm_fix_once parse query yaml_safe_load json_dump open_error str_of_list
     LLM_MODEL chat_completions_create split_response).
Abbreviation llm_fix_and_validate_ :=
  (generate_ontology.llm_fix_and_validate parse query yaml_safe_load json_dump open_error
     str_of_list LLM_MODEL chat_completions_create split_response).
Abbreviation llm_setup_and_validate_ :=
  (generate_ontology.llm_setup_and_validate parse query yaml_safe_load json_dump open_error
     str_of_list LLM_MODEL chat_completions_create split_response).

Lemma files_evaluate (ttl_text : string) (cqs : list (gmap string value)) (w : world) :
  files (snd (validator.validate_with_competency_questions parse query ttl_text cqs w))
  = files w.
Proof. by destruct (evaluate_logs parse query ttl_text cqs w) as (evs & -> & _). Qed.

(** ** Files *)








(** ** The prompt log *)

Lemma appends_to_validate_output path tpath dest :
  path_join dest "validation_report.json" <> path ->
  appends_to path (validate_output_ tpath dest).
Proof.
  intros Hne. unfold generate_ontology.validate_output.
  apply appends_to_bind.
  { unfold validator.validate_ttl. apply appends_to_bind;
      [apply appends_to_read_file |].
    intros t. destruct (parse t);
      (apply appends_to_bind; [apply appends_to_emit_log |]);
      intros _; apply appends_to_ret. }
  intros [|]; cbn [negb]; [| apply appends_to_ret].
  apply appends_to_bind.
  { unfold validator.validate_with_competency_questions_file, validator._load_json.
    apply appends_to_bind; [apply appends_to_read_file |]. intros t.
    apply appends_to_bind.
    - apply appends_to_bind; [apply appends_to_read_file |]. intros y.
      destruct (yaml_safe_load y); [apply appends_to_ret | apply appends_to_raise].
    - intros cqs w. exists "". by rewrite files_evaluate, string_app_nil_r. }
  intros r. destruct (negb (fst r)); [| apply appends_to_ret].
  apply appends_to_bind; [| intros; apply appends_to_ret].
  unfold validator.log_report.
  apply appends_to_bind; [| intros _; apply appends_to_ret].
  destruct (open_error _); [apply appends_to_emit_log |].
  apply appends_to_bind; [by apply appends_to_write_file |]. intros _.
  apply appends_to_emit_log.
Qed.

Lemma appends_to_call_llm path system_prompt text dest model :
  appends_to path (call_llm_ system_prompt text dest model).
Proof.
  unfold generate_ontology.call_llm.
  apply appends_to_bind; [apply appends_to_append_file |]. intros _.
  apply appends_to_bind; [apply appends_to_append_file |]. intros _.
  intros w. exists "".
  destruct (chat_completions_create _ _ _ _); by rewrite string_app_nil_r.
Qed.

Lemma appends_to_llm_fix_once content dest error_msg :
  appends_to (path_join dest "LLM_prompt.md") (llm_fix_once_ content dest error_msg).
Proof.
  unfold generate_ontology.llm_fix_once.
  apply appends_to_bind.
  { apply appends_to_try_except; [apply appends_to_call_llm |].
    intros; apply appends_to_raise. }
  intros fixed. apply appends_to_bind.
  { unfold generate_ontology.save_outputs.
    apply appends_to_bind.
    { apply appends_to_write_file. by intros ?%path_join_inj. }
    intros _. apply appends_to_bind; [| intros; apply appends_to_ret].
    apply appends_to_write_file. by intros ?%path_join_inj. }
  intros paths. apply appends_to_bind; [| intros; apply appends_to_ret].
  apply appends_to_validate_output. by intros ?%path_join_inj.
Qed.

(** X18. The prompt log [LLM_prompt.md] only grows during
    [llm_fix_and_validate]: what it held before is still at its start
    afterwards. *)
Theorem fix_loop_appends_to_prompt_log (content dest error_msg : string)
    (step max_steps : nat) :
  appends_to (path_join dest "LLM_prompt.md")
    (llm_fix_and_validate_ content dest error_msg step max_steps).
Proof.
  intros w.
  funelim (llm_fix_and_validate_ content dest error_msg step max_steps w);
    match goal with
    | Heq : generate_ontology.llm_fix_once _ _ _ _ _ _ _ _ _ ?c ?d ?e ?w0 = _ |- _ =>
        destruct (appends_to_llm_fix_once c d e w0) as [s1 H1];
        rewrite Heq in H1; cbn [snd] in H1
    end; cbn [snd]; try by exists s1.
  match goal with IH : exists _, _ |- _ => destruct IH as [s2 H2] end.
  exists (s1 +:+ s2). by rewrite H2, H1, string_app_assoc.
Qed.

End fix_loop.

Section fix_runs.

Context {graph : Type}.
Variable parse : string -> parse_result graph.
Variable query : graph -> value -> query_result.
Variable yaml_safe_load : string -> option (list (gmap string value)).
Variable json_dump : Report -> string.
Variable open_error : string -> option string.
Variable str_of_list : list scalar -> string.
Variable LLM_MODEL : option string.
Variable chat_completions_create : nat -> string -> string -> string -> llm_reply.
Variable split_response : string -> string.

Abbreviation validate_output_' :=
  (generate_ontology.validate_output parse query yaml_safe_load json_dump open_error str_of_list).
Abbreviation call_llm_' :=
  (generate_ontology.call_llm LLM_MODEL chat_completions_create).
Abbreviation llm_fix_once_' :=
  (generate_ontology.llm_fix_once parse query yaml_safe_load json_dump open_error str_of_list
     LLM_MODEL chat_completions_create split_response).
Abbreviation llm_fix_and_validate_' :=
  (generate_ontology.llm_fix_and_validate parse query yaml_safe_load json_dump open_error
     str_of_list LLM_MODEL chat_completions_create split_response).
Abbreviation llm_setup_and_validate_' :=
  (generate_ontology.llm_setup_and_validate parse query yaml_safe_load json_dump open_error
     str_of_list LLM_MODEL chat_completions_create split_response).

(** ** Validation cycles *)

Lemma cycles_validate_output tpath dest : cycles_at_most 1 (validate_output_' tpath dest).
Proof.
  intros w.
  destruct (validate_output_log parse query yaml_safe_load json_dump open_error str_of_list
              tpath dest w) as (evs & Hl & Hc & _).
  unfold validate_cycles. rewrite Hl, filter_app, length_app. lia.
Qed.

Lemma cycles_call_llm system_prompt text dest model :
  cycles_at_most 0 (call_llm_' system_prompt text dest model).
Proof.
  apply cycles_at_most_same_log. intros w.
  unfold generate_ontology.call_llm, bind, append_file. cbn.
  by destruct (chat_completions_create _ _ _ _).
Qed.

Lemma cycles_try_exit {A} (k : nat) (m : M A) (code : Z) :
  cycles_at_most k m ->
  cycles_at_most k (generate_ontology.try_except m (fun _ => raise (SystemExit code))).
Proof.
  intros Hm w. unfold generate_ontology.try_except. specialize (Hm w).
  by destruct (m w) as [[a | [c | msg]] w1].
Qed.

Lemma cycles_save_outputs json_text ttl_text dest out_prefix :
  cycles_at_most 0 (generate_ontology.save_outputs json_text ttl_text dest out_prefix).
Proof. by apply cycles_at_most_same_log. Qed.

Lemma cycles_read_file path : cycles_at_most 0 (read_file path).
Proof.
  apply cycles_at_most_same_log. intros w. unfold read_file.
  by destruct (files w !! path).
Qed.

Lemma cycles_ret {A} (a : A) : cycles_at_most 0 (ret a).
Proof. by apply cycles_at_most_same_log. Qed.

Lemma cycles_llm_fix_once content dest error_msg :
  cycles_at_most 1 (llm_fix_once_' content dest error_msg).
Proof.
  unfold generate_ontology.llm_fix_once.
  apply (cycles_at_most_bind 0 1); [apply cycles_try_exit, cycles_call_llm |].
  intros fixed. apply (cycles_at_most_bind 0 1); [apply cycles_save_outputs |].
  intros paths. apply (cycles_at_most_bind 1 0); [apply cycles_validate_output |].
  intros r. apply cycles_ret.
Qed.

Lemma llm_fix_and_validate_cycles (content dest error_msg : string)
    (step max_steps : nat) :
  cycles_at_most (S (max_steps - step))
    (llm_fix_and_validate_' content dest error_msg step max_steps).
Proof.
  intros w.
  funelim (llm_fix_and_validate_' content dest error_msg step max_steps w);
    match goal with
    | Heq : generate_ontology.llm_fix_once _ _ _ _ _ _ _ _ _ ?c ?d ?e ?w0 = _ |- _ =>
        pose proof (cycles_llm_fix_once c d e w0) as H1;
        rewrite Heq in H1; cbn [snd] in H1
    end; cbn [snd] in *; lia.
Qed.

(** X15. [llm_fix_and_validate] sends some number [n] of requests, at least
    one and at most [max_steps - step + 1], and validates at most [n]
    documents. *)
Theorem fix_loop_cycles (content dest error_msg : string) (step max_steps : nat)
    (w : world) :
  let w' := snd (llm_fix_and_validate_' content dest error_msg step max_steps w) in
  exists n,
    1 <= n <= S (max_steps - step) /\
    llm_calls w' = llm_calls w + n /\
    validate_cycles w' <= validate_cycles w + n.
Proof.
  cbn zeta.
  pose proof (llm_fix_and_validate_calls parse query yaml_safe_load json_dump open_error
                str_of_list LLM_MODEL chat_completions_create split_response
                content dest error_msg step max_steps w) as Hcalls.
  cbn zeta in Hcalls.
  eexists (llm_calls (snd (llm_fix_and_validate_' content dest error_msg
                             step max_steps w)) - llm_calls w).
  split; [lia |]. split; [lia |].
  assert (Hle : validate_cycles
                  (snd (llm_fix_and_validate_' content dest error_msg step max_steps w))
                + llm_calls w <=
                validate_cycles w +
                llm_calls (snd (llm_fix_and_validate_' content dest error_msg
                                  step max_steps w))); [| lia].
  clear Hcalls.
  funelim (llm_fix_and_validate_' content dest error_msg step max_steps w);
    match goal with
    | Heq : generate_ontology.llm_fix_once _ _ _ _ _ _ _ _ _ ?c ?d ?e ?w0 = _ |- _ =>
        pose proof (cycles_llm_fix_once c d e w0) as H1;
        pose proof (one_call_llm_fix_once parse query yaml_safe_load json_dump open_error
                      str_of_list LLM_MODEL chat_completions_create split_response
                      c d e w0) as H2;
        rewrite Heq in H1, H2; cbn [snd] in H1, H2
    end; cbn [snd] in *; lia.
Qed.

(** X16. A whole run validates at most [max_steps + 2] documents, and
    without [--recursive] it sends at most one request and validates at
    most one document. *)
Theorem setup_cycles (args : generate_ontology.Args) (w : world) :
  let w' := snd (llm_setup_and_validate_' args w) in
  validate_cycles w' <= validate_cycles w + 2 + generate_ontology.default_max_steps /\
  (generate_ontology.recursive args = false ->
   validate_cycles w' <= validate_cycles w + 1 /\ llm_calls w' <= llm_calls w + 1).
Proof.
  cbn zeta. destruct (llm_setup_and_validate_' args w) as [o w'] eqn:Hrun.
  cbn [snd]. revert Hrun. unfold generate_ontology.llm_setup_and_validate.
  destruct (negb _ && negb _); [intros [= <- <-]; split; [lia | intros _; lia] |].
  unfold bind at 1.
  match goal with |- context [(if ?c then ?a else ?b) w] =>
    assert (Ht : cycles_at_most 0 (if c then a else b))
      by (destruct c; [apply cycles_read_file | apply cycles_ret]);
    assert (Ht' : no_calls (if c then a else b))
      by (destruct c; [apply no_calls_read_file | apply no_calls_ret]);
    specialize (Ht w); specialize (Ht' w);
    destruct ((if c then a else b) w) as [[txt | e] w1]
  end; cbn [snd] in *; [| intros [= <- <-]; split; [lia | intros _; lia]].
  unfold bind at 1. unfold generate_ontology.load_system_prompt.
  pose proof (cycles_read_file (generate_ontology.system args) w1) as Hs.
  pose proof (no_calls_read_file (generate_ontology.system args) w1) as Hs'.
  destruct (read_file _ w1) as [[sp | e] w2]; cbn [snd] in *;
    [| intros [= <- <-]; split; [lia | intros _; lia]].
  unfold bind at 1.
  match goal with |- context [generate_ontology.try_except ?m ?h w2] =>
    pose proof (cycles_try_exit 0 m 1 (cycles_call_llm _ _ _ _) w2) as Hc;
    pose proof (one_call_try_exit m 1
                  (one_call_call_llm LLM_MODEL chat_completions_create _ _ _ _) w2) as Hc';
    destruct (generate_ontology.try_except m h w2) as [[content | e] w3]
  end; cbn [snd] in *; [| intros [= <- <-]; split; [lia | intros _; lia]].
  unfold bind at 1.
  pose proof (cycles_save_outputs content
                (generate_ontology.ttl_of split_response content)
                (generate_ontology.dest args) (generate_ontology.name args) w3) as Hsv.
  pose proof (no_calls_save_outputs content
                (generate_ontology.ttl_of split_response content)
                (generate_ontology.dest args) (generate_ontology.name args) w3) as Hsv'.
  destruct (generate_ontology.save_outputs _ _ _ _ w3) as [[paths | e] w4];
    cbn [snd] in *; [| intros [= <- <-]; split; [lia | intros _; lia]].
  unfold bind at 1.
  pose proof (cycles_validate_output (snd paths) (generate_ontology.dest args) w4) as Hv.
  pose proof (no_calls_validate_output parse query yaml_safe_load json_dump open_error
                str_of_list (snd paths) (generate_ontology.dest args) w4) as Hv'.
  destruct (generate_ontology.validate_output _ _ _ _ _ _ _ _ w4)
    as [[error_msg | e] w5]; cbn [snd] in *;
    [| intros [= <- <-]; split; [lia | intros _; lia]].
  destruct (generate_ontology.recursive args).
  - rewrite andb_true_r. intros Hrun. split; [| done].
    destruct (generate_ontology.truthy_opt error_msg);
      [| injection Hrun as <- <-; lia].
    pose proof (llm_fix_and_validate_cycles
                  (generate_ontology.ttl_of split_response content)
                  (generate_ontology.dest args) (default "" error_msg)
                  0 generate_ontology.default_max_steps w5) as Hl.
    rewrite Hrun in Hl. cbn [snd] in Hl.
    assert (Hd : generate_ontology.default_max_steps = 3) by reflexivity.
    lia.
  - rewrite andb_false_r. intros [= <- <-]. split; [lia | intros _; lia].
Qed.

End fix_runs.

(** * Single steps of the loop *)

Section steps.

Context {graph : Type}.
Variable parse : string -> parse_result graph.
Variable query : graph -> value -> query_result.
Variable yaml_safe_load : string -> option (list (gmap string value)).
Variable json_dump : Report -> string.
Variable open_error : string -> option string.
Variable str_of_list : list scalar -> string.
Variable LLM_MODEL : option string.
Variable chat_completions_create : nat -> string -> string -> string -> llm_reply.
Variable split_response : string -> string.

Abbreviation call_llm_s :=
  (generate_ontology.call_llm LLM_MODEL chat_completions_create).
Abbreviation llm_fix_once_s :=
  (generate_ontology.llm_fix_once parse query yaml_safe_load json_dump open_error str_of_list
     LLM_MODEL chat_completions_create split_response).
Abbreviation llm_fix_and_validate_s :=
  (generate_ontology.llm_fix_and_validate parse query yaml_safe_load json_dump open_error
     str_of_list LLM_MODEL chat_completions_create split_response).

Lemma path_join_absolute (a b : string) : is_relative b = false -> path_join a b = b.
Proof.
  unfold path_join, is_relative.
  by destruct b as [| [[] [] [] [] [] [] [] []] t].
Qed.

Lemma md_is_not_ttl (dest out_prefix : string) :
  path_join dest (out_prefix +:+ ".md") <> path_join dest (out_prefix +:+ ".ttl").
Proof.
  assert (Hr : is_relative (out_prefix +:+ ".md") = is_relative (out_prefix +:+ ".ttl"))
    by (by destruct out_prefix).
  destruct (is_relative (out_prefix +:+ ".md")) eqn:H1; symmetry in Hr.
  - intros He%path_join_inj; [| done | done].
    by apply (inj (String.app _)) in He.
  - rewrite !path_join_absolute by done. intros He.
    by apply (inj (String.app _)) in He.
Qed.

(** X17. What [save_outputs] writes can be read back: the two paths it
    returns differ, and reading them gives the JSON part and the Turtle
    part. *)
Theorem save_outputs_round_trip (json_text ttl_text dest out_prefix : string)
    (w : world) :
  exists (jpath tpath : string) (w' : world),
    generate_ontology.save_outputs json_text ttl_text dest out_prefix w =
      (Ret (jpath, tpath), w') /\
    jpath <> tpath /\
    read_file jpath w' = (Ret json_text, w') /\
    read_file tpath w' = (Ret ttl_text, w').
Proof.
  do 3 eexists. split; [reflexivity |].
  split; [apply md_is_not_ttl |]. unfold read_file. cbn [files].
  split.
  - by rewrite lookup_insert_ne, lookup_insert_eq by (symmetry; apply md_is_not_ttl).
  - by rewrite lookup_insert_eq.
Qed.

Lemma call_llm_failure (system_prompt text dest e : string) (model : option string)
    (w : world) :
  (forall m s u, chat_completions_create (llm_calls w) m s u = LlmRaises e) ->
  exists w',
    call_llm_s system_prompt text dest model w = (Raise (Exception e), w') /\
    llm_calls w' = S (llm_calls w) /\ LOG w' = LOG w /\
    forall p, p <> path_join dest "LLM_prompt.md" -> files w' !! p = files w !! p.
Proof.
  intros Hc. unfold generate_ontology.call_llm, bind, append_file.
  cbn [files LOG llm_calls]. rewrite Hc. eexists. split; [reflexivity |].
  cbn [files LOG llm_calls]. repeat split.
  intros p Hp. by rewrite !lookup_insert_ne.
Qed.

Lemma call_llm_reply (system_prompt text dest c : string) (model : option string)
    (w : world) :
  (forall m s u, chat_completions_create (llm_calls w) m s u = Reply c) ->
  exists w',
    call_llm_s system_prompt text dest model w = (Ret c, w') /\
    llm_calls w' = S (llm_calls w) /\ LOG w' = LOG w /\
    forall p, p <> path_join dest "LLM_prompt.md" -> files w' !! p = files w !! p.
Proof.
  intros Hc. unfold generate_ontology.call_llm, bind, append_file.
  cbn [files LOG llm_calls]. rewrite Hc. eexists. split; [reflexivity |].
  cbn [files LOG llm_calls]. repeat split.
  intros p Hp. by rewrite !lookup_insert_ne.
Qed.

(** X12. When the request for a fix fails, [llm_fix_and_validate] ends
    with [SystemExit(1)] at once: nothing is saved, validated or logged,
    only the prompt log has grown. *)
Theorem producer_failure_exits (content dest error_msg e : string)
    (step max_steps : nat) (w : world) :
  (forall m s u, chat_completions_create (llm_calls w) m s u = LlmRaises e) ->
  exists w',
    llm_fix_and_validate_s content dest error_msg step max_steps w =
      (Raise (SystemExit 1), w') /\
    llm_calls w' = S (llm_calls w) /\ LOG w' = LOG w /\
    forall p, p <> path_join dest "LLM_prompt.md" -> files w' !! p = files w !! p.
Proof.
  intros Hc.
  assert (Honce : exists w',
            llm_fix_once_s content dest error_msg w = (Raise (SystemExit 1), w') /\
            llm_calls w' = S (llm_calls w) /\ LOG w' = LOG w /\
            forall p, p <> path_join dest "LLM_prompt.md" ->
                      files w' !! p = files w !! p).
  { unfold generate_ontology.llm_fix_once. unfold bind at 1.
    unfold generate_ontology.try_except.
    match goal with |- context [generate_ontology.call_llm _ _ ?s ?t ?d ?m w] =>
      destruct (call_llm_failure s t d e m w Hc) as (w1 & -> & H1 & H2 & H3) end.
    by exists w1. }
  destruct Honce as (w1 & Honce & H1 & H2 & H3). exists w1. split; [| done].
  funelim (llm_fix_and_validate_s content dest error_msg step max_steps w);
    match goal with
    | Ha : generate_ontology.llm_fix_once _ _ _ _ _ _ _ _ _ _ _ _ _ = _,
      Hb : generate_ontology.llm_fix_once _ _ _ _ _ _ _ _ _ _ _ _ _ = _ |- _ =>
        rewrite Ha in Hb; by inversion Hb
    end.
Qed.

Lemma cqs_file_is_kept (dest b : string) :
  b <> "" -> last_char b <> Some "n"%char -> path_join dest b <> "cqs_example.json".
Proof.
  intros Hb Hl He. apply (f_equal last_char) in He.
  rewrite path_join_last_char in He by done. by rewrite He in Hl.
Qed.

(** X13. When the first fix parses and passes every question,
    [llm_fix_and_validate] returns after that one request, whatever
    [step] and [max_steps] are, leaving the accepted Turtle in
    [fixed_output.ttl]. *)
Theorem accepted_fix_ends_loop (content dest error_msg c yaml : string) (g : graph)
    (cqs : list (gmap string value)) (step max_steps : nat) (w : world) :
  (forall m s u, chat_completions_create (llm_calls w) m s u = Reply c) ->
  parse (generate_ontology.ttl_of split_response c) = Parsed g ->
  files w !! "cqs_example.json" = Some yaml ->
  yaml_safe_load yaml = Some cqs ->
  all_pass query g cqs = true ->
  exists w',
    llm_fix_and_validate_s content dest error_msg step max_steps w = (Ret tt, w') /\
    llm_calls w' = S (llm_calls w) /\
    files w' !! path_join dest "fixed_output.ttl"
      = Some (generate_ontology.ttl_of split_response c).
Proof.
  intros Hc Hp Hq Hy Hall.
  assert (Honce : exists w',
            llm_fix_once_s content dest error_msg w = (Ret (c, None), w') /\
            llm_calls w' = S (llm_calls w) /\
            files w' !! path_join dest "fixed_output.ttl"
              = Some (generate_ontology.ttl_of split_response c)).
  { unfold generate_ontology.llm_fix_once. unfold bind at 1.
    unfold generate_ontology.try_except.
    match goal with |- context [generate_ontology.call_llm _ _ ?s ?t ?d ?m w] =>
      destruct (call_llm_reply s t d c m w Hc) as (w1 & -> & H1 & H2 & H3) end.
    unfold bind at 1.
    change (generate_ontology.save_outputs c (generate_ontology.ttl_of split_response c)
              dest "fixed_output" w1)
      with (Ret (path_join dest "fixed_output.md", path_join dest "fixed_output.ttl"),
            written (written w1 (path_join dest "fixed_output.md") c)
              (path_join dest "fixed_output.ttl")
              (generate_ontology.ttl_of split_response c)).
    cbn [snd]. unfold bind at 1.
    match goal with |- context [generate_ontology.validate_output _ _ _ _ _ _ ?t ?d ?w2] =>
      destruct (validate_output_run parse query yaml_safe_load json_dump open_error str_of_list
                  t d (generate_ontology.ttl_of split_response c) yaml g cqs w2)
        as (evs & Hv)
    end.
    - cbn [written files]. by rewrite lookup_insert_eq.
    - exact Hp.
    - cbn [written files].
      rewrite !lookup_insert_ne by (apply cqs_file_is_kept; [done | by vm_compute]).
      rewrite H3; [done |]. apply not_eq_sym, cqs_file_is_kept; [done | by vm_compute].
    - exact Hy.
    - by apply all_pass_reads.
    - rewrite Hall in Hv. rewrite Hv. eexists. split; [reflexivity |].
      cbn [logged written files llm_calls]. split; [done |].
      by rewrite lookup_insert_eq. }
  destruct Honce as (w1 & Honce & H1 & H2). exists w1.
  split; [| done].
  funelim (llm_fix_and_validate_s content dest error_msg step max_steps w);
    match goal with
    | Ha : generate_ontology.llm_fix_once _ _ _ _ _ _ _ _ _ _ _ _ _ = _,
      Hb : generate_ontology.llm_fix_once _ _ _ _ _ _ _ _ _ _ _ _ _ = _ |- _ =>
        rewrite Ha in Hb; inversion Hb; subst
    end; done.
Qed.

End steps.

(** * The destination chosen by main *)

Section destination.

Variable LLM_MODEL : option string.
Variable existing : gset string.

Lemma string_length_app (a b : string) :
  String.length (a +:+ b) = String.length a + String.length b.
Proof.
  induction a as [| c a IH]; [done |].
  rewrite string_app_cons. cbn [String.length]. by rewrite IH.
Qed.

Lemma py_str_nat_inj (i j : nat) :
  py_str (SInt (Z.of_nat i)) = py_str (SInt (Z.of_nat j)) -> i = j.
Proof.
  cbn [py_str]. intros He.
  assert (Hnn : forall z, Z.to_int z <> Decimal.Pos Decimal.Nil /\
                          Z.to_int z <> Decimal.Neg Decimal.Nil).
  { intros [| q | q]; cbn; split; try discriminate;
      intros [= Hq]; by apply DecimalPos.Unsigned.to_uint_nonnil in Hq. }
  assert (Hi : Some (Z.to_int (Z.of_nat i)) = Some (Z.to_int (Z.of_nat j))).
  { rewrite <- (NilZero.isi (Z.to_int (Z.of_nat i))) by apply Hnn.
    rewrite <- (NilZero.isi (Z.to_int (Z.of_nat j))) by apply Hnn.
    by rewrite He. }
  injection Hi as Hi. apply (f_equal Z.of_int) in Hi.
  rewrite !DecimalZ.of_to in Hi. lia.
Qed.

Lemma candidate_inj (base_dest : string) (i j : nat) :
  candidate base_dest i = candidate base_dest j -> i = j.
Proof.
  assert (Hlen : forall k, String.length (cli.numbered base_dest k)
                            <> String.length base_dest).
  { intros k. unfold cli.numbered. rewrite !string_length_app.
    cbn [String.length]. lia. }
  destruct i as [| i], j as [| j]; cbn [candidate]; intros He.
  - done.
  - apply (f_equal String.length) in He. by destruct (Hlen (S j)).
  - apply (f_equal String.length) in He. by destruct (Hlen (S i)).
  - unfold cli.numbered in He. apply (inj (String.app _)) in He.
    apply (inj (String.app _)) in He. by apply py_str_nat_inj.
Qed.

(** Among more candidates than there are existing paths, one is free. *)
Lemma free_candidate (base_dest : string) :
  exists j, j < S (size existing) /\ candidate base_dest j ∉ existing.
Proof.
  destruct (decide (Forall (fun j => candidate base_dest j ∈ existing)
                      (seq 0 (S (size existing))))) as [Hall | Hex].
  - exfalso.
    assert (Hnd : NoDup (candidate base_dest <$> seq 0 (S (size existing)))).
    { apply NoDup_fmap_2; [| apply NoDup_seq]. intros i j. apply candidate_inj. }
    assert (Hsub : list_to_set (candidate base_dest <$> seq 0 (S (size existing)))
                   ⊆ existing).
    { intros x [j [-> Hj]]%elem_of_list_to_set%list_elem_of_fmap.
      by eapply Forall_forall in Hall. }
    apply subseteq_size in Hsub.
    rewrite size_list_to_set, length_fmap, length_seq in Hsub by done. lia.
  - apply not_Forall_Exists in Hex; [| intros j; apply _].
    apply Exists_exists in Hex as (j & Hj%elem_of_seq & Hfree).
    exists j. split; [lia | done].
Qed.

Lemma while_exists_finds (base_dest : string) (fuel k : nat) :
  (exists j, k <= j < k + fuel /\ candidate base_dest j ∉ existing) ->
  exists j,
    k <= j /\
    (cli.while_exists existing base_dest (candidate base_dest k) (S k) fuel
      = Some (candidate base_dest j)) /\
    (candidate base_dest j ∉ existing) /\
    forall l, k <= l < j -> candidate base_dest l ∈ existing.
Proof.
  revert k. induction fuel as [| fuel IH]; intros k (j & Hj & Hfree); [lia |].
  cbn [cli.while_exists]. case_bool_decide as Hk.
  - destruct (IH (S k)) as (j' & Hj' & Hrun & Hfree' & Hbefore).
    { exists j. split; [| done].
      assert (j <> k) by (by intros ->). lia. }
    exists j'. split; [lia |]. split; [exact Hrun |]. split; [done |].
    intros l Hl. destruct (decide (l = k)) as [-> | Hne]; [done |].
    apply Hbefore. lia.
  - exists k. split; [lia |]. split; [done |]. split; [done |]. intros l Hl. lia.
Qed.

(** X19. When a generation is asked for, [main] never uses an existing
    path as destination: the loop over the numbered names ends, and the
    destination is the first name among [dest], [dest_1], [dest_2], ...
    that does not exist. With [--validate-only] the given destination is
    used as it is. *)
Theorem chosen_destination_is_fresh (args : generate_ontology.Args) :
  cli.choose_dest LLM_MODEL existing args true = cli.given_dest LLM_MODEL args /\
  exists k,
    (cli.choose_dest LLM_MODEL existing args false
      = candidate (cli.given_dest LLM_MODEL args) k) /\
    (candidate (cli.given_dest LLM_MODEL args) k ∉ existing) /\
    forall l, l < k -> candidate (cli.given_dest LLM_MODEL args) l ∈ existing.
Proof.
  unfold cli.choose_dest. split; [by rewrite andb_false_r |].
  rewrite andb_true_r. case_bool_decide as Hd.
  - destruct (free_candidate (cli.given_dest LLM_MODEL args)) as (j & Hj & Hfree).
    destruct (while_exists_finds (cli.given_dest LLM_MODEL args)
                (S (size existing)) 0) as (k & _ & Hrun & Hk & Hbefore).
    { exists j. split; [lia | done]. }
    change (candidate (cli.given_dest LLM_MODEL args) 0)
      with (cli.given_dest LLM_MODEL args) in Hrun.
    rewrite Hrun. exists k.
    split; [done |]. split; [done |]. intros l Hl. apply Hbefore. lia.
  - exists 0. split; [done |]. split; [done |]. intros l Hl. lia.
Qed.

End destination.

(** * The whole run *)

Section whole_run.

Context {graph : Type}.
Variable parse : string -> parse_result graph.
Variable query : graph -> value -> query_result.
Variable yaml_safe_load : string -> option (list (gmap string value)).
Variable json_dump : Report -> string.
Variable open_error : string -> option string.
Variable str_of_list : list scalar -> string.
Variable LLM_MODEL : option string.
Variable chat_completions_create : nat -> string -> string -> string -> llm_reply.
Variable split_response : string -> string.
Variable existing : gset string.

Abbreviation validate_output_w :=
  (generate_ontology.validate_output parse query yaml_safe_load json_dump open_error str_of_list).
Abbreviation llm_setup_and_validate_w :=
  (generate_ontology.llm_setup_and_validate parse query yaml_safe_load json_dump open_error
     str_of_list LLM_MODEL chat_completions_create split_response).
Abbreviation main_w :=
  (cli.main parse query yaml_safe_load json_dump open_error str_of_list LLM_MODEL
     chat_completions_create split_response existing).



(** A validation cycle never ends the program: it returns or raises an
    ordinary exception. *)
Lemma validate_output_never_exits (tpath dest : string) (w : world) (code : Z) :
  fst (validate_output_w tpath dest w) <> Raise (SystemExit code).
Proof.
  unfold generate_ontology.validate_output, validator.validate_ttl.
  unfold bind at 1. unfold bind at 1. unfold read_file at 1.
  destruct (files w !! tpath) as [ttl_text |] eqn:Hf; [| done].
  destruct (parse ttl_text) as [g | e] eqn:Hp; [| done].
  unfold bind at 1, emit_log at 1, ret at 1. cbn [negb].
  unfold bind at 1.
  unfold validator.validate_with_competency_questions_file, validator._load_json.
  unfold bind at 1, read_file at 1. cbn [files]. rewrite Hf.
  unfold bind at 1. unfold bind at 1, read_file at 1. cbn [files].
  destruct (files w !! "cqs_example.json") as [yaml |]; [| done].
  destruct (yaml_safe_load yaml) as [cqs |]; [| done].
  unfold ret at 1.
  match goal with |- context [validator.validate_with_competency_questions _ _ _ _ ?w1] =>
    pose proof (evaluate_never_exits parse query ttl_text cqs w1 code) as Hev;
    destruct (validator.validate_with_competency_questions parse query ttl_text cqs w1)
      as [[[ok report] | e] w2]
  end; [| cbn [fst] in *; intros [= ->]; by apply Hev].
  cbn [fst snd]. destruct (negb ok); [| done].
  unfold validator.log_report. by destruct (open_error _).
Qed.

(** X21. With [--validate-only], [main] never ends with [SystemExit]: it
    returns normally whether the document is accepted or rejected, and the
    only other outcome is an ordinary exception such as a missing file. *)
Theorem validate_only_never_exits (args : generate_ontology.Args) (w : world) :
  (exists w', main_w args true w = (Ret tt, w')) \/
  (exists msg w', main_w args true w = (Raise (Exception msg), w')).
Proof.
  destruct (main_w args true w) as [o w1] eqn:Hrun. revert Hrun.
  unfold cli.main. cbn [negb]. unfold bind at 1, ret at 1. unfold bind at 1.
  match goal with |- context [generate_ontology.validate_output _ _ _ _ _ _ ?t ?d w] =>
    pose proof (validate_output_never_exits t d w) as Hne;
    destruct (generate_ontology.validate_output parse query yaml_safe_load json_dump open_error
                str_of_list t d w) as [[r | [code | msg]] w']
  end.
  - intros [= <- <-]. left. by exists w'.
  - by destruct (Hne code).
  - intros [= <- <-]. right. by exists msg, w'.
Qed.

End whole_run.

(** * The further statements on concrete inputs *)

Lemma select_default_passed_iff_witness :
  exists entry,
    validator.validate_with_competency_question toy_query tt any_cq [] empty_world
      = (Ret entry, empty_world) /\
    entry !! "actual" = Some (Seq [SStr "a"; SStr "b"; SStr "a"]) /\
    entry !! "passed" = Some (Bool_ true).
Proof.
  apply (select_default_passed_iff toy_query tt any_cq [] empty_world
           [RowDict [SStr "a"]; RowDict [SStr "b"]; RowDict [SStr "a"]]).
  - reflexivity.
  - left. reflexivity.
Defined.

Lemma ask_other_expected_witness :
  exists (entry : gmap string value) (p : bool),
    validator.validate_with_competency_question toy_query tt one_cq [] empty_world
      = (Ret entry, empty_world) /\
    entry !! "passed" = Some (Bool_ p) /\
    p = (1 =? 1)%Z.
Proof.
  apply (ask_other_expected toy_query tt one_cq [] empty_world true (Int_ 1));
    reflexivity.
Defined.

Lemma outcome_id_is_set_witness :
  exists v : value,
    outcome_of toy_query tt any_cq !! "id" = Some v /\
    truthy v = true /\
    v = (if truthy (get any_cq "id" None_) then get any_cq "id" None_
         else if truthy (get any_cq "name" None_) then get any_cq "name" None_
         else Str_ "unnamed").
Proof.
  apply (outcome_id_is_set toy_query tt any_cq (outcome_of toy_query tt any_cq) []
           empty_world empty_world).
  reflexivity.
Defined.

Lemma outcome_keys_witness :
  dom (outcome_of toy_query tt bad_cq) =
    list_to_set ["id"; "sparql"; "expected"; "question"; "passed"; "actual"]
    ∪ match toy_query tt (get bad_cq "sparql" (Str_ "")) with
      | QueryRaises _ => ({["error"]} : gset string)
      | _ => ∅
      end.
Proof.
  apply (outcome_keys toy_query tt bad_cq (outcome_of toy_query tt bad_cq) [] empty_world
           (logged empty_world
              [competency_question_error (Str_ "q5")
                 "Expected {SelectQuery | ConstructQuery | DescribeQuery | AskQuery}"
                 (Str_ "SELEC ?x")])).
  reflexivity.
Defined.

Lemma read_failure_aborts_batch_witness :
  exists qevs,
    validator.validate_with_competency_questions accept_all toy_query ":a a :C ."
      ([ask_cq] ++ lazy_cq :: [count_cq]) empty_world =
      (Raise (Exception "<urlopen error [Errno 111] Connection refused>"),
       logged empty_world
         (CQ_validation_start (length ([ask_cq] ++ lazy_cq :: [count_cq])) :: qevs)) /\
    forallb (fun ev => is_question_record ev || is_error_record ev) qevs = true /\
    length (filter is_question_record qevs) = length [ask_cq].
Proof.
  apply (read_failure_aborts_batch accept_all toy_query ":a a :C ." tt
           [ask_cq] [count_cq] lazy_cq []
           "<urlopen error [Errno 111] Connection refused>" empty_world);
    [reflexivity | repeat constructor | reflexivity].
Defined.

Lemma raising_query_rendering_witness :
  validator.pretty_print_errors no_repr
    {| summary := {| total := 1; passed := 0 |};
       results := [outcome_of toy_query tt bad_cq] |} =
  String.concat nl
    [ "Competency Questions Validation Report:";
      "  Passed 0 out of 1 questions.";
      "- Question ID: q5";
      "  Question: ";
      "  Error: Expected {SelectQuery | ConstructQuery | DescribeQuery | AskQuery}" ].
Proof.
  apply (raising_query_rendering toy_query no_repr tt bad_cq
           "Expected {SelectQuery | ConstructQuery | DescribeQuery | AskQuery}"
           {| total := 1; passed := 0 |}).
  reflexivity.
Defined.


Lemma validate_output_aborts_witness :
  exists evs,
    generate_ontology.validate_output accept_all toy_query three_questions no_json
      always_opens no_repr "dest/output.ttl" "dest" valid_file_world =
    (Raise (Exception "<urlopen error [Errno 111] Connection refused>"),
     logged valid_file_world evs).
Proof.
  apply (validate_output_aborts accept_all toy_query three_questions no_json always_opens
           no_repr "dest/output.ttl" "dest" ":a a :C ." "- id: q1" tt
           [ask_cq] [count_cq] lazy_cq []);
    [reflexivity | reflexivity | reflexivity | reflexivity | repeat constructor
    | reflexivity].
Defined.

(** The name [dest/./fixed_output.ttl] is a name of [dest/fixed_output.ttl],
    one of the four files. *)
Lemma another_name_of_a_fix_path :
  ("dest/./fixed_output.ttl" ∉ fix_paths "dest") /\
  (abspath "/home/user" "dest/./fixed_output.ttl"
     ∈ abspath "/home/user" <$> fix_paths "dest").
Proof. split; apply (bool_decide_unpack _); vm_compute; exact I. Qed.



Lemma validate_output_message_nonempty_witness :
  generate_ontology.truthy_opt (Some "Failed to load Turtle file.") = true <->
  Some "Failed to load Turtle file." <> None.
Proof.
  apply (validate_output_message_nonempty reject_all toy_query no_yaml no_json always_opens no_repr
           "dest/output.ttl" "dest" broken_file_world
           (logged broken_file_world [ttl_invalid "dest/output.ttl" "Bad syntax"])).
  reflexivity.
Defined.

Lemma validate_output_without_questions_witness :
  generate_ontology.validate_output accept_all toy_query no_yaml no_json always_opens no_repr
    "dest/output.ttl" "dest" broken_file_world =
  (Raise (Exception "FileNotFoundError"),
   logged broken_file_world [ttl_valid "dest/output.ttl"]).
Proof.
  apply (validate_output_without_questions accept_all toy_query no_yaml no_json always_opens no_repr
           "dest/output.ttl" "dest" "@prefix : <" tt broken_file_world);
    reflexivity.
Defined.


Lemma producer_failure_exits_witness :
  exists w',
    generate_ontology.llm_fix_and_validate accept_all toy_query no_yaml no_json always_opens no_repr
      None dead_llm no_split ":a a :C" "dest" "Some questions failed" 0 3 ready_world
      = (Raise (SystemExit 1), w') /\
    llm_calls w' = S (llm_calls ready_world) /\ LOG w' = LOG ready_world /\
    forall p, p <> path_join "dest" "LLM_prompt.md" ->
              files w' !! p = files ready_world !! p.
Proof.
  apply (producer_failure_exits accept_all toy_query no_yaml no_json always_opens no_repr
           None dead_llm no_split ":a a :C" "dest" "Some questions failed"
           "Connection error." 0 3 ready_world).
  reflexivity.
Defined.

Lemma accepted_fix_ends_loop_witness :
  exists w',
    generate_ontology.llm_fix_and_validate accept_all toy_query no_yaml no_json always_opens no_repr
      None helpful_llm no_split ":a a :C" "dest" "Some questions failed" 0 3 ready_world
      = (Ret tt, w') /\
    llm_calls w' = S (llm_calls ready_world) /\
    files w' !! path_join "dest" "fixed_output.ttl"
      = Some (generate_ontology.ttl_of no_split "## OWL").
Proof.
  apply (accepted_fix_ends_loop accept_all toy_query no_yaml no_json always_opens no_repr
           None helpful_llm no_split ":a a :C" "dest" "Some questions failed"
           "## OWL" "[]" tt [] 0 3 ready_world);
    reflexivity.
Defined.


(** * The Turtle block of a reply *)

Section reply.

Lemma strip_prefix_app (p r : string) : response.strip_prefix p (p +:+ r) = Some r.
Proof.
  induction p as [| a p IH]; [by destruct r |].
  rewrite string_app_cons. cbn [response.strip_prefix].
  by rewrite Ascii.eqb_refl.
Qed.

Lemma strip_prefix_some (p s r : string) :
  response.strip_prefix p s = Some r -> s = p +:+ r.
Proof.
  revert s. induction p as [| a p IH]; intros s.
  - cbn [response.strip_prefix]. by intros [= <-].
  - destruct s as [| b s]; [done |]. cbn [response.strip_prefix].
    destruct (Ascii.eqb_spec a b) as [-> | Hne]; [| done].
    intros ->%IH. by rewrite string_app_cons.
Qed.

Lemma strip_prefix_ci_some (p s r : string) :
  response.strip_prefix_ci p s = Some r ->
  exists l, s = l +:+ r /\ response.lower_string l = p.
Proof.
  revert s. induction p as [| a p IH]; intros s.
  - cbn [response.strip_prefix_ci]. intros [= <-]. by exists "".
  - destruct s as [| b s]; [done |]. cbn [response.strip_prefix_ci].
    destruct (Ascii.eqb_spec a (response.lower b)) as [-> | Hne]; [| done].
    intros (l & -> & <-)%IH. by exists (String b l).
Qed.

Lemma strip_prefix_ci_app (l r : string) :
  response.strip_prefix_ci (response.lower_string l) (l +:+ r) = Some r.
Proof.
  induction l as [| a l IH]; [by destruct r |].
  rewrite string_app_cons. cbn [response.lower_string response.strip_prefix_ci].
  by rewrite Ascii.eqb_refl.
Qed.

Lemma split_after_some (sep s r : string) :
  response.split_after sep s = Some r -> exists a, s = a +:+ sep +:+ r.
Proof.
  induction s as [| c s IH].
  - cbn [response.split_after]. destruct (response.strip_prefix sep "") eqn:Hp; [| done].
    intros [= ->]. exists "". exact (strip_prefix_some _ _ _ Hp).
  - cbn [response.split_after].
    destruct (response.strip_prefix sep (String c s)) eqn:Hp.
    + intros [= ->]. exists "". exact (strip_prefix_some _ _ _ Hp).
    + intros [a ->]%IH. by exists (String c a).
Qed.

Lemma split_after_none (sep s : string) :
  response.split_after sep s = None -> forall a b, s <> a +:+ sep +:+ b.
Proof.
  intros Hn a b ->. revert Hn. induction a as [| c a IH].
  - change ("" +:+ sep +:+ b) with (sep +:+ b).
    destruct (sep +:+ b) eqn:He; cbn [response.split_after];
      rewrite <- He, strip_prefix_app; done.
  - rewrite string_app_cons. cbn [response.split_after].
    by destruct (response.strip_prefix sep _).
Qed.

Lemma app_prefix_cut (p x y z : string) :
  x +:+ y = p +:+ z -> String.length p <= String.length x -> exists b, x = p +:+ b.
Proof.
  revert x. induction p as [| a p IH]; intros x He Hl; [by exists x |].
  destruct x as [| c x]; [cbn in Hl; lia |].
  rewrite !string_app_cons in He. injection He as -> He.
  destruct (IH x He) as [b ->]; [cbn in Hl; lia |]. by exists b.
Qed.

(** The split is at the first occurrence of the heading. *)
Lemma split_after_first (pre r : string) :
  (forall a b, pre +:+ "## OW" <> a +:+ "## OWL" +:+ b) ->
  response.split_after "## OWL" (pre +:+ "## OWL" +:+ r) = Some r.
Proof.
  induction pre as [| c pre IH]; intros Hfirst.
  - change ("" +:+ "## OWL" +:+ r) with ("## OWL" +:+ r).
    destruct r; reflexivity.
  - rewrite string_app_cons. cbn [response.split_after].
    destruct (response.strip_prefix "## OWL" (String c (pre +:+ "## OWL" +:+ r)))
      as [r' |] eqn:Hp.
    + exfalso. apply strip_prefix_some in Hp.
      change "## OWL" with ("## OW" +:+ "L") in Hp at 1.
      rewrite string_app_assoc, <- string_app_cons, <- string_app_assoc in Hp.
      destruct (app_prefix_cut "## OWL" _ _ _ Hp) as [b Hb].
      { rewrite string_length_app. cbn. lia. }
      by apply (Hfirst "" b).
    + apply IH. intros a b He. apply (Hfirst (String c a) b).
      by rewrite !string_app_cons, He.
Qed.

Lemma lstrip_spaces (ws x : string) :
  Forall (fun c => response.isspace c = true) (list_ascii_of_string ws) ->
  response.lstrip (ws +:+ x) = response.lstrip x.
Proof.
  induction ws as [| c ws IH]; [done |].
  cbn [list_ascii_of_string]. intros [Hc Hws]%Forall_cons.
  rewrite string_app_cons. cbn [response.lstrip]. rewrite Hc. by apply IH.
Qed.

Lemma lstrip_head (s : string) :
  response.lstrip s = "" \/
  exists c t, response.lstrip s = String c t /\ response.isspace c = false.
Proof.
  induction s as [| c s IH]; [by left |].
  cbn [response.lstrip]. destruct (response.isspace c) eqn:Hc; [done |].
  right. by exists c, s.
Qed.

Lemma rstrip_nonspace (c : ascii) (t : string) :
  response.isspace c = false ->
  response.rstrip (String c t) = String c (response.rstrip t).
Proof. intros Hc. cbn [response.rstrip]. rewrite Hc. by destruct (response.rstrip t). Qed.

Lemma rstrip_app_nonspace (x y : string) (c : ascii) :
  response.isspace c = false ->
  response.rstrip (x +:+ String c y) = x +:+ String c (response.rstrip y).
Proof.
  intros Hc. induction x as [| d x IH]; [by apply rstrip_nonspace |].
  rewrite !string_app_cons. cbn [response.rstrip]. rewrite IH.
  by destruct x.
Qed.

Lemma rstrip_idemp (s : string) : response.rstrip (response.rstrip s) = response.rstrip s.
Proof.
  induction s as [| c s IH]; [done |].
  cbn [response.rstrip]. destruct (response.rstrip s) as [| e t] eqn:Hr.
  - destruct (response.isspace c) eqn:Hc; [done |]. cbn [response.rstrip]. by rewrite Hc.
  - cbn [response.rstrip]. cbn [response.rstrip] in IH.
    by destruct (response.rstrip t); rewrite IH.
Qed.

Lemma strip_idemp (s : string) : response.strip (response.strip s) = response.strip s.
Proof.
  unfold response.strip.
  assert (Hl : response.lstrip (response.rstrip (response.lstrip s))
               = response.rstrip (response.lstrip s)).
  { destruct (lstrip_head s) as [-> | (c & t & -> & Hc)]; [done |].
    rewrite rstrip_nonspace by done. cbn [response.lstrip]. by rewrite Hc. }
  by rewrite Hl, rstrip_idemp.
Qed.

Lemma lazy_group_sound (s g : string) :
  response.lazy_group s = Some g ->
  g <> "" /\ exists y, s = g +:+ response.closing +:+ y.
Proof.
  revert g. induction s as [| c s IH]; intros g; [done |].
  cbn [response.lazy_group].
  destruct (response.strip_prefix response.closing s) as [y |] eqn:Hp.
  - intros [= <-]. split; [done |]. exists y.
    by rewrite (strip_prefix_some _ _ _ Hp).
  - destruct (response.lazy_group s) as [g' |]; [| done]. intros [= <-].
    destruct (IH g' eq_refl) as (_ & y & ->). split; [done |]. by exists y.
Qed.

Lemma lazy_group_body (body rest : string) :
  body <> "" ->
  "`"%char ∉ list_ascii_of_string body ->
  response.lazy_group (body +:+ response.closing +:+ rest) = Some body.
Proof.
  induction body as [| c body IH]; [done |]. intros _ Hq.
  cbn [list_ascii_of_string] in Hq. apply not_elem_of_cons in Hq as [Hc Hq].
  rewrite string_app_cons. cbn [response.lazy_group].
  destruct body as [| d body].
  - change ("" +:+ response.closing +:+ rest) with (response.closing +:+ rest).
    by rewrite strip_prefix_app.
  - rewrite IH by done. cbn [option_map].
    assert (Hn : response.strip_prefix response.closing
                   (String d body +:+ response.closing +:+ rest) = None);
      [| by rewrite Hn].
    rewrite string_app_cons.
    change response.closing with (String "010"%char "```") at 1.
    cbn [response.strip_prefix].
    destruct (Ascii.eqb_spec "010" d) as [<- | Hd]; [| done].
    cbn [list_ascii_of_string] in Hq. apply not_elem_of_cons in Hq as [_ Hq].
    destruct body as [| e body].
    + reflexivity.
    + rewrite string_app_cons. cbn [response.strip_prefix].
      cbn [list_ascii_of_string] in Hq. apply not_elem_of_cons in Hq as [He _].
      by destruct (Ascii.eqb_spec "`" e).
Qed.

Lemma match_here_sound (s g : string) :
  response.match_here s = Some g ->
  exists lang y,
    s = "```" +:+ lang +:+ nl +:+ g +:+ response.closing +:+ y /\
    (response.lower_string lang = "ttl" \/ response.lower_string lang = "turtle") /\
    g <> "".
Proof.
  unfold response.match_here.
  destruct (response.strip_prefix "```" s) as [r |] eqn:Hs; [| done].
  apply strip_prefix_some in Hs as ->.
  assert (Halt : forall p,
            match response.strip_prefix_ci p r with
            | Some (String c r') =>
                if Ascii.eqb c "010" then response.lazy_group r' else None
            | _ => None
            end = Some g ->
            exists lang y,
              r = lang +:+ nl +:+ g +:+ response.closing +:+ y /\
              response.lower_string lang = p /\ g <> "").
  { intros p. destruct (response.strip_prefix_ci p r) as [[| c r'] |] eqn:Hp;
      [done | | done].
    destruct (Ascii.eqb_spec c "010") as [-> | Hc]; [| done].
    intros (Hg & y & ->)%lazy_group_sound.
    apply strip_prefix_ci_some in Hp as (lang & -> & <-). by exists lang, y. }
  destruct (match response.strip_prefix_ci "ttl" r with
            | Some (String c r') =>
                if Ascii.eqb c "010" then response.lazy_group r' else None
            | _ => None
            end) as [g1 |] eqn:H1.
  - intros [= <-]. destruct (Halt _ H1) as (lang & y & -> & Hl & Hg).
    exists lang, y. auto.
  - intros H2. destruct (Halt _ H2) as (lang & y & -> & Hl & Hg).
    exists lang, y. auto.
Qed.

Lemma search_sound (s g : string) :
  response.search s = Some g ->
  exists x lang y,
    s = x +:+ "```" +:+ lang +:+ nl +:+ g +:+ response.closing +:+ y /\
    (response.lower_string lang = "ttl" \/ response.lower_string lang = "turtle") /\
    g <> "".
Proof.
  induction s as [| c s IH].
  - cbn [response.search]. destruct (response.match_here "") eqn:Hm; [| done].
    apply match_here_sound in Hm as (lang & y & Hs & _). discriminate Hs.
  - cbn [response.search]. destruct (response.match_here (String c s)) eqn:Hm.
    + intros [= ->]. apply match_here_sound in Hm as (lang & y & -> & Hl & Hg).
      by exists "", lang, y.
    + intros (x & lang & y & -> & Hl & Hg)%IH. by exists (String c x), lang, y.
Qed.

Lemma match_here_body (lang body rest : string) :
  response.lower_string lang = "ttl" \/ response.lower_string lang = "turtle" ->
  body <> "" ->
  "`"%char ∉ list_ascii_of_string body ->
  response.match_here ("```" +:+ lang +:+ nl +:+ body +:+ response.closing +:+ rest)
  = Some body.
Proof.
  intros Hl Hb Hq. unfold response.match_here.
  rewrite strip_prefix_app.
  pose proof (strip_prefix_ci_app lang (nl +:+ body +:+ response.closing +:+ rest)) as Hci.
  pose proof (lazy_group_body body rest Hb Hq) as Hg.
  destruct Hl as [Hl | Hl]; rewrite Hl in Hci.
  - rewrite Hci. change (nl +:+ ?x) with (String "010"%char x).
    cbn [Ascii.eqb Bool.eqb]. by rewrite Hg.
  - assert (H1 : response.strip_prefix_ci "ttl"
                   (lang +:+ nl +:+ body +:+ response.closing +:+ rest) = None).
    { destruct lang as [| a [| b lang]]; try discriminate.
      cbn [response.lower_string] in Hl. injection Hl as Ha Hb' _.
      rewrite !string_app_cons. cbn [response.strip_prefix_ci].
      rewrite Ha, Hb'. reflexivity. }
    rewrite H1, Hci. change (nl +:+ ?x) with (String "010"%char x).
    cbn [Ascii.eqb Bool.eqb]. by rewrite Hg.
Qed.

Lemma search_here (s g : string) :
  response.match_here s = Some g -> response.search s = Some g.
Proof. intros Hm. destruct s; cbn [response.search]; by rewrite Hm. Qed.

(** X22. [split_response] returns a non-empty text only when the reply has
    the heading [## OWL] and, after it, a fence of three backquotes
    followed by [ttl] or [turtle] in any case and a line feed, then a
    non-empty block, then a line feed and three backquotes; the result is
    that block, stripped. Otherwise it returns the empty string. *)
Theorem split_response_sound (content : string) :
  response.split_response content <> "" ->
  exists before after x lang g y : string,
    content = before +:+ "## OWL" +:+ after /\
    response.strip after = x +:+ "```" +:+ lang +:+ nl +:+ g +:+ nl +:+ "```" +:+ y /\
    (response.lower_string lang = "ttl" \/ response.lower_string lang = "turtle") /\
    g <> "" /\
    response.split_response content = response.strip g.
Proof.
  unfold response.split_response.
  destruct (response.split_after "## OWL" content) as [after |] eqn:Hs; [| done].
  destruct (response.search (response.strip after)) as [g |] eqn:Hg; [| done].
  intros _. apply split_after_some in Hs as [before ->].
  apply search_sound in Hg as (x & lang & y & Hg & Hl & Hne).
  by exists before, after, x, lang, g, y.
Qed.

Lemma rstrip_fence (x rest : string) :
  response.rstrip (x +:+ "```" +:+ rest) = x +:+ "```" +:+ response.rstrip rest.
Proof.
  change ("```" +:+ ?y) with (String "`"%char (String "`"%char (String "`"%char y))).
  rewrite rstrip_app_nonspace by done. by rewrite !rstrip_nonspace.
Qed.

Lemma lstrip_fence (y : string) : response.lstrip ("```" +:+ y) = "```" +:+ y.
Proof. reflexivity. Qed.

(** X23. From a reply made of any text without the heading, the heading
    [## OWL], white space, a fence [```ttl] or [```turtle] in any case, a
    non-empty block without backquotes, the closing fence and any text,
    [split_response] returns the block, stripped. *)
Theorem split_response_extracts (before ws lang body rest : string) :
  (forall a b, before +:+ "## OW" <> a +:+ "## OWL" +:+ b) ->
  Forall (fun c => response.isspace c = true) (list_ascii_of_string ws) ->
  response.lower_string lang = "ttl" \/ response.lower_string lang = "turtle" ->
  body <> "" ->
  "`"%char ∉ list_ascii_of_string body ->
  response.split_response
    (before +:+ "## OWL" +:+ ws +:+ "```" +:+ lang +:+ nl +:+ body +:+ nl +:+ "```" +:+ rest)
  = response.strip body.
Proof.
  intros Hfirst Hws Hl Hb Hq. unfold response.split_response.
  rewrite split_after_first by done. unfold response.strip at 1.
  rewrite lstrip_spaces, lstrip_fence by done.
  replace ("```" +:+ lang +:+ nl +:+ body +:+ nl +:+ "```" +:+ rest)
    with (("```" +:+ lang +:+ nl +:+ body +:+ nl) +:+ "```" +:+ rest)
    by (by rewrite !string_app_assoc).
  rewrite rstrip_fence.
  replace (("```" +:+ lang +:+ nl +:+ body +:+ nl) +:+ "```" +:+ response.rstrip rest)
    with ("```" +:+ lang +:+ nl +:+ body +:+ response.closing +:+ response.rstrip rest)
    by (unfold response.closing; by rewrite !string_app_assoc).
  by rewrite (search_here _ body) by (by apply match_here_body).
Qed.

(** X24. What [split_response] returns has no white space at either end:
    stripping it again changes nothing. *)
Theorem split_response_is_stripped (content : string) :
  response.strip (response.split_response content) = response.split_response content.
Proof.
  unfold response.split_response.
  destruct (response.split_after "## OWL" content) as [after |]; [| done].
  destruct (response.search (response.strip after)) as [g |]; [| done].
  apply strip_idemp.
Qed.

End reply.

Lemma split_response_sound_witness :
  exists before after x lang g y : string,
    fenced_reply = before +:+ "## OWL" +:+ after /\
    response.strip after = x +:+ "```" +:+ lang +:+ nl +:+ g +:+ nl +:+ "```" +:+ y /\
    (response.lower_string lang = "ttl" \/ response.lower_string lang = "turtle") /\
    g <> "" /\
    response.split_response fenced_reply = response.strip g.
Proof. apply (split_response_sound fenced_reply). vm_compute. discriminate. Defined.

Lemma split_response_extracts_witness :
  response.split_response
    (("[]" +:+ nl) +:+ "## OWL" +:+ nl +:+ "```" +:+ "TTL" +:+ nl +:+ ":a a :C . "
       +:+ nl +:+ "```" +:+ nl)
  = response.strip ":a a :C . ".
Proof.
  apply (split_response_extracts ("[]" +:+ nl) nl "TTL" ":a a :C . " nl).
  - apply split_after_none. vm_compute. reflexivity.
  - apply (bool_decide_unpack _). vm_compute. exact I.
  - left. reflexivity.
  - discriminate.
  - apply (bool_decide_unpack _). vm_compute. exact I.
Defined.

(** * Exit statuses *)

Section exit_status.

Context {graph : Type}.
Variable parse : string -> parse_result graph.
Variable query : graph -> value -> query_result.
Variable yaml_safe_load : string -> option (list (gmap string value)).
Variable json_dump : Report -> string.
Variable open_error : string -> option string.
Variable str_of_list : list scalar -> string.
Variable LLM_MODEL : option string.
Variable chat_completions_create : nat -> string -> string -> string -> llm_reply.
Variable split_response : string -> string.

Abbreviation llm_fix_once_x :=
  (generate_ontology.llm_fix_once parse query yaml_safe_load json_dump open_error str_of_list
     LLM_MODEL chat_completions_create split_response).
Abbreviation llm_fix_and_validate_x :=
  (generate_ontology.llm_fix_and_validate parse query yaml_safe_load json_dump open_error
     str_of_list LLM_MODEL chat_completions_create split_response).
Abbreviation llm_setup_and_validate_x :=
  (generate_ontology.llm_setup_and_validate parse query yaml_safe_load json_dump open_error
     str_of_list LLM_MODEL chat_completions_create split_response).

Lemma exits_with_never {A} (code : Z) (m : M A) :
  (forall w c, fst (m w) <> Raise (SystemExit c)) -> exits_with code m.
Proof. intros Hm w c H. by destruct (Hm w c). Qed.

Lemma exits_with_bind {A B} (code : Z) (m : M A) (k : A -> M B) :
  exits_with code m -> (forall a, exits_with code (k a)) -> exits_with code (bind m k).
Proof.
  intros Hm Hk w c. unfold bind. specialize (Hm w c).
  destruct (m w) as [[a | e] w1]; cbn [fst] in *; [apply Hk |].
  intros [= ->]. by apply Hm.
Qed.

Lemma exits_with_try_exit {A} (code : Z) (m : M A) :
  exits_with code m ->
  exits_with code (generate_ontology.try_except m (fun _ => raise (SystemExit code))).
Proof.
  intros Hm w c. unfold generate_ontology.try_except. specialize (Hm w c).
  destruct (m w) as [[a | [c' | msg]] w1]; cbn [fst] in *; try done.
  by intros [= <-].
Qed.

Lemma exits_with_read_file (code : Z) (path : string) : exits_with code (read_file path).
Proof.
  apply exits_with_never. intros w c. unfold read_file.
  by destruct (files w !! path).
Qed.

Lemma exits_with_call_llm (code : Z) system_prompt text dest model :
  exits_with code (generate_ontology.call_llm LLM_MODEL chat_completions_create
                     system_prompt text dest model).
Proof.
  apply exits_with_never. intros w c.
  unfold generate_ontology.call_llm, bind, append_file. cbn.
  by destruct (chat_completions_create _ _ _ _).
Qed.

Lemma exits_with_llm_fix_once content dest error_msg :
  exits_with 1 (llm_fix_once_x content dest error_msg).
Proof.
  unfold generate_ontology.llm_fix_once.
  apply exits_with_bind; [apply exits_with_try_exit, exits_with_call_llm |].
  intros fixed. apply exits_with_bind; [by apply exits_with_never |].
  intros paths. apply exits_with_bind; [| intros r; by apply exits_with_never].
  apply exits_with_never. intros w c. apply validate_output_never_exits.
Qed.

Lemma exits_with_llm_fix_and_validate content dest error_msg step max_steps :
  exits_with 1 (llm_fix_and_validate_x content dest error_msg step max_steps).
Proof.
  intros w c.
  funelim (llm_fix_and_validate_x content dest error_msg step max_steps w);
    match goal with
    | Heq : generate_ontology.llm_fix_once _ _ _ _ _ _ _ _ _ ?c0 ?d ?e ?w0 = _ |- _ =>
        pose proof (exits_with_llm_fix_once c0 d e w0 c) as H1;
        rewrite Heq in H1; cbn [fst] in H1
    end; cbn [fst]; try done; auto.
  intros [= ->]. by apply H1.
Qed.

(** X26. [llm_setup_and_validate] ends with [SystemExit(2)] exactly when
    neither a file nor a text is given, and then before any effect; every
    other [SystemExit] it raises has status 1. A rejected document is never
    turned into an exit status. *)
Theorem exit_statuses (args : generate_ontology.Args) (w : world) :
  let no_input :=
    negb (generate_ontology.truthy_opt (generate_ontology.file args))
    && negb (generate_ontology.truthy_opt (generate_ontology.text args)) in
  (no_input = true -> llm_setup_and_validate_x args w = (Raise (SystemExit 2), w)) /\
  (forall c,
     fst (llm_setup_and_validate_x args w) = Raise (SystemExit c) ->
     c = (if no_input then 2 else 1)%Z).
Proof.
  cbn zeta. unfold generate_ontology.llm_setup_and_validate.
  destruct (negb _ && negb _) eqn:Hn.
  - split; [done |]. by intros c [= <-].
  - split; [done |]. intros c. revert w c.
    change (exits_with 1
      (text <~ (if generate_ontology.truthy_opt (generate_ontology.file args)
                then read_file (default "" (generate_ontology.file args))
                else ret (default "" (generate_ontology.text args))) ;;
       system_prompt <~ generate_ontology.load_system_prompt
                          (generate_ontology.system args) ;;
       content <~ generate_ontology.try_except
                    (generate_ontology.call_llm LLM_MODEL chat_completions_create
                       system_prompt text (generate_ontology.dest args)
                       (generate_ontology.model args))
                    (fun _ => raise (SystemExit 1)) ;;
       let ttl_part := generate_ontology.ttl_of split_response content in
       paths <~ generate_ontology.save_outputs content ttl_part
                  (generate_ontology.dest args) (generate_ontology.name args) ;;
       error_msg <~ generate_ontology.validate_output parse query yaml_safe_load
                      json_dump open_error str_of_list (snd paths) (generate_ontology.dest args) ;;
       if generate_ontology.truthy_opt error_msg && generate_ontology.recursive args
       then llm_fix_and_validate_x ttl_part (generate_ontology.dest args)
              (default "" error_msg) 0 generate_ontology.default_max_steps
       else ret tt)).
    apply exits_with_bind.
    { destruct (generate_ontology.truthy_opt _);
        [apply exits_with_read_file | by apply exits_with_never]. }
    intros text. apply exits_with_bind; [apply exits_with_read_file |].
    intros sp. apply exits_with_bind; [apply exits_with_try_exit, exits_with_call_llm |].
    intros content. cbn zeta. apply exits_with_bind; [by apply exits_with_never |].
    intros paths. apply exits_with_bind.
    { apply exits_with_never. intros w c. apply validate_output_never_exits. }
    intros error_msg.
    destruct (generate_ontology.truthy_opt error_msg && generate_ontology.recursive args);
      [apply exits_with_llm_fix_and_validate | by apply exits_with_never].
Qed.

End exit_status.
